(** Shallow embedding of [src/scheduler/task_scheduler.py]: the [Task]
    entity, its persisted dictionary form, and the [TaskScheduler] registry
    operations, with the part of the [schedule] library (version 1.2.2)
    that [_schedule_task] relies on.

    A [datetime.datetime] is its wall-clock time in whole seconds since
    0001-01-01T00:00:00 together with its UTC offset ([None] for a naive
    datetime); [datetime.datetime.now()] is naive and is given by its
    seconds.  Adding a [datetime.timedelta] raises [OverflowError] when the
    result leaves the range of [datetime]; building one raises it when its
    days exceed 999999999.  The registry ([self.tasks], an
    insertion-ordered Python dict) is an association list.  The datetime
    string codecs and the calendar arithmetic of the cron branch are Section
    variables.  A call that can fail to terminate returns an [outcome]. *)

From Stdlib Require Import ZArith List String Ascii Bool Lia.
Import ListNotations.

Local Open Scope Z_scope.

(** Seconds from [datetime.min] to [datetime.max] (9999-12-31T23:59:59). *)
Definition max_secs : Z := 315537897599.

Record datetime := mkDatetime {
  dt_secs : Z;
  dt_utcoffset : option Z
}.

Definition naive (s : Z) : datetime := mkDatetime s None.

(** [datetime.timedelta(seconds=n)] does not raise. *)
Definition timedelta_ok (n : Z) : bool :=
  (-999999999 <=? n / 86400) && (n / 86400 <=? 999999999).

(** [d + datetime.timedelta(seconds=n)] for a datetime at second [d]:
    [None] when it raises [OverflowError]. *)
Definition add_seconds (d n : Z) : option Z :=
  if timedelta_ok n && (0 <=? d + n) && (d + n <=? max_secs)
  then Some (d + n) else None.

(** Behaviour of [self.function] called with [self.args] and [self.kwargs]: it returns a
    value or raises an exception. *)
Inductive fn_result :=
| Returns (v : Z)
| Raises (msg : string).

(** Python-level outcome of a call: a returned value or a propagated
    exception. *)
Inductive exc (A : Type) :=
| Ok (a : A)
| Exc (msg : string).
Arguments Ok {A} a.
Arguments Exc {A} msg.

(** A call that returns, or one that never returns (an infinite loop). *)
Inductive outcome (A : Type) :=
| Done (a : A)
| Loops.
Arguments Done {A} a.
Arguments Loops {A}.

(** Handle of a job registered in the [schedule] library. *)
Definition Job := nat.

Record Task := mkTask {
  task_id : string;
  name : string;
  function : fn_result;
  schedule_type : string;
  interval : Z;
  cron : option string;
  start_time : option datetime;
  end_time : option datetime;
  max_runs : option Z;
  enabled : bool;
  run_count : Z;
  last_run : option datetime;
  next_run : option datetime;
  job : option Job
}.

(** [Task.__init__]: run-state starts empty. *)
Definition new_Task (tid nm : string) (f : fn_result) (st : string) (iv : Z)
    (cr : option string) (stt et : option datetime) (mr : option Z)
    (en : bool) : Task :=
  mkTask tid nm f st iv cr stt et mr en 0 None None None.

(** Attribute assignments [task.x = v]. *)
Definition set_enabled (b : bool) (t : Task) : Task :=
  mkTask (task_id t) (name t) (function t) (schedule_type t) (interval t)
    (cron t) (start_time t) (end_time t) (max_runs t) b (run_count t)
    (last_run t) (next_run t) (job t).

Definition set_run_count (n : Z) (t : Task) : Task :=
  mkTask (task_id t) (name t) (function t) (schedule_type t) (interval t)
    (cron t) (start_time t) (end_time t) (max_runs t) (enabled t) n
    (last_run t) (next_run t) (job t).

Definition set_last_run (d : option datetime) (t : Task) : Task :=
  mkTask (task_id t) (name t) (function t) (schedule_type t) (interval t)
    (cron t) (start_time t) (end_time t) (max_runs t) (enabled t)
    (run_count t) d (next_run t) (job t).

Definition set_next_run (d : option datetime) (t : Task) : Task :=
  mkTask (task_id t) (name t) (function t) (schedule_type t) (interval t)
    (cron t) (start_time t) (end_time t) (max_runs t) (enabled t)
    (run_count t) (last_run t) d (job t).

Definition set_job (j : option Job) (t : Task) : Task :=
  mkTask (task_id t) (name t) (function t) (schedule_type t) (interval t)
    (cron t) (start_time t) (end_time t) (max_runs t) (enabled t)
    (run_count t) (last_run t) (next_run t) j.

Definition set_function (f : fn_result) (t : Task) : Task :=
  mkTask (task_id t) (name t) f (schedule_type t) (interval t)
    (cron t) (start_time t) (end_time t) (max_runs t) (enabled t)
    (run_count t) (last_run t) (next_run t) (job t).

(** [self.max_runs is not None and self.run_count >= self.max_runs] *)
Definition reached_max_runs (t : Task) : bool :=
  match max_runs t with
  | Some m => m <=? run_count t
  | None => false
  end.

(** [self.end_time is not None and datetime.datetime.now() > self.end_time]:
    comparing the naive [now] with an offset-aware [end_time] raises
    [TypeError]. *)
Definition past_end_time (now : Z) (t : Task) : exc bool :=
  match end_time t with
  | None => Ok false
  | Some e =>
      match dt_utcoffset e with
      | None => Ok (dt_secs e <? now)
      | Some _ => Exc "TypeError"
      end
  end.

(** [Task.run].  [now_check] is the [datetime.now()] of the end-time check,
    [now_fire] the one stored in [last_run].  The returned boolean is an
    observation only: whether the work-unit was invoked.  The end-time
    check (line 132) is outside the [try]: its exception propagates.  Inside
    the [try], an exception of the work-unit, or the [OverflowError] of
    [self.last_run + datetime.timedelta(seconds=self.interval)], is turned
    into a [None] result, keeping the assignments already made. *)
Definition Task_run (now_check now_fire : Z) (t : Task)
    : Task * exc (option Z) * bool :=
  if negb (enabled t) then (t, Ok None, false)
  else if reached_max_runs t then (set_enabled false t, Ok None, false)
  else
    match past_end_time now_check t with
    | Exc e => (t, Exc e, false)
    | Ok true => (set_enabled false t, Ok None, false)
    | Ok false =>
    match function t with
    | Raises _ => (t, Ok None, true)
    | Returns v =>
        let t1 := set_last_run (Some (naive now_fire))
                    (set_run_count (run_count t + 1) t) in
        if String.eqb (schedule_type t1) "interval" then
          match add_seconds now_fire (interval t1) with
          | Some d => (set_next_run (Some (naive d)) t1, Ok (Some v), true)
          | None => (t1, Ok None, true)
          end
        else if String.eqb (schedule_type t1) "cron" then
          (t1, Ok (Some v), true)
        else if String.eqb (schedule_type t1) "once" then
          (set_enabled false (set_next_run None t1), Ok (Some v), true)
        else (t1, Ok (Some v), true)
    end
    end.

(** The dictionary built by [Task.to_dict]; timestamps are ISO strings.
    The work-unit has no field here. *)
Record TaskRecord := mkRecord {
  r_task_id : string;
  r_name : string;
  r_schedule_type : string;
  r_interval : Z;
  r_cron : option string;
  r_start_time : option string;
  r_end_time : option string;
  r_max_runs : option Z;
  r_enabled : bool;
  r_run_count : Z;
  r_last_run : option string;
  r_next_run : option string
}.

(** [self.tasks] (an insertion-ordered dict), the global job list of the
    [schedule] library, the next job handle it hands out, and the content
    of [tasks.json] ([None] when the file does not exist). *)
Record Sched := mkSched {
  tasks : list (string * Task);
  jobs : list Job;
  next_job : Job;
  store : option (list TaskRecord)
}.

Definition set_tasks (l : list (string * Task)) (s : Sched) : Sched :=
  mkSched l (jobs s) (next_job s) (store s).

(** [task_id in self.tasks] *)
Fixpoint mem (k : string) (l : list (string * Task)) : bool :=
  match l with
  | [] => false
  | (k', _) :: l' => String.eqb k k' || mem k l'
  end.

(** [self.tasks.get(task_id)] *)
Fixpoint find_task (k : string) (l : list (string * Task)) : option Task :=
  match l with
  | [] => None
  | (k', t) :: l' => if String.eqb k k' then Some t else find_task k l'
  end.

(** [self.tasks[k] = t] for a key already present: the value is replaced
    in place. *)
Fixpoint update (k : string) (t : Task) (l : list (string * Task))
    : list (string * Task) :=
  match l with
  | [] => []
  | (k', t') :: l' =>
      if String.eqb k k' then (k', t) :: l' else (k', t') :: update k t l'
  end.

(** [self.tasks[k] = t]: replaced in place when present, appended at the
    end otherwise. *)
Definition dict_set (k : string) (t : Task) (l : list (string * Task))
    : list (string * Task) :=
  if mem k l then update k t l else l ++ [(k, t)].

(** [get_tasks]: [list(self.tasks.values())] *)
Definition get_tasks (s : Sched) : list Task := map snd (tasks s).

(** [schedule.cancel_job(job)] *)
Definition cancel_job (j : Job) (s : Sched) : Sched :=
  mkSched (tasks s) (filter (fun j' => negb (Nat.eqb j j')) (jobs s))
    (next_job s) (store s).

(** [... .do(task.run)] once the next run is computed: the job is appended
    to the library's job list. *)
Definition register_job (s : Sched) : Sched * Job :=
  (mkSched (tasks s) (jobs s ++ [next_job s]) (S (next_job s)) (store s),
   next_job s).

(** What [schedule.every(n).seconds.do(f)] does before appending the job:
    [Job._schedule_next_run] computes its first run, or raises, or loops
    forever. *)
Inductive do_result :=
| Scheduled (next : Z)
| DoRaises
| DoLoops.

(** [Job._schedule_next_run] of schedule 1.2.2 for unit ["seconds"]
    without [at], [until] or a time zone:
    {v
        now = datetime.datetime.now()
        next_run = now
        period = datetime.timedelta(seconds=interval)
        if interval != 1:
            next_run += period
        while next_run <= now:
            next_run += period
    v}
    For [n > 0] the loop runs at most once (only when [n = 1]).  For
    [n = 0] it never ends.  For [n < 0] every step moves [next_run] back by
    [|n|] until the addition leaves the datetime range and raises
    [OverflowError]; [every_seconds_do_sound] below checks this closed form
    against the loop. *)
Definition every_seconds_do (now n : Z) : do_result :=
  if negb (timedelta_ok n) then DoRaises
  else
    match (if Z.eqb n 1 then Some now else add_seconds now n) with
    | None => DoRaises
    | Some nr =>
        if now <? nr then Scheduled nr
        else if Z.eqb n 0 then DoLoops
        else if n <? 0 then DoRaises
        else
          match add_seconds nr n with
          | Some nr' => Scheduled nr'
          | None => DoRaises
          end
    end.

(** The [while next_run <= now: next_run += period] loop as a big-step
    relation: from [nr] it ends with [r]. *)
Inductive loop_ends (now period : Z) : Z -> do_result -> Prop :=
| loop_exit (nr : Z) :
    now < nr -> loop_ends now period nr (Scheduled nr)
| loop_overflow (nr : Z) :
    nr <= now -> add_seconds nr period = None ->
    loop_ends now period nr DoRaises
| loop_step (nr nr' : Z) (r : do_result) :
    nr <= now -> add_seconds nr period = Some nr' ->
    loop_ends now period nr' r -> loop_ends now period nr r.

(** [str.isspace()] on the characters below 256 (read as Latin-1):
    [\t \n \x0b \x0c \r], [\x1c]-[\x1f], space, [\x85] and [\xa0]. *)
Definition is_ws (c : ascii) : bool :=
  let n := nat_of_ascii c in
  (Nat.leb 9 n && Nat.leb n 13) || (Nat.leb 28 n && Nat.leb n 32)
  || Nat.eqb n 133 || Nat.eqb n 160.

(** [str.split()]: split on runs of whitespace. *)
Fixpoint split_ws_aux (s cur : string) : list string :=
  match s with
  | EmptyString => if String.eqb cur "" then [] else [cur]
  | String c rest =>
      if is_ws c then
        if String.eqb cur "" then split_ws_aux rest ""
        else cur :: split_ws_aux rest ""
      else split_ws_aux rest (cur ++ String c EmptyString)
  end.

Definition split_ws (s : string) : list string := split_ws_aux s "".

Section Scheduler.

(** The [datetime] ISO codec: [d.isoformat()] and
    [datetime.fromisoformat(s)] ([None] when it raises [ValueError]). *)
Variable isoformat : datetime -> string.
Variable fromisoformat : string -> option datetime.

(** The part of the cron branch of [_schedule_task] that calls the
    [schedule] library ([job.at(...)], [getattr(schedule.every(), ...)]):
    [true] when the job is built, [false] when the library raises. *)
Variable cron_job_ok : list string -> bool.
(** [now.replace(minute=..., hour=..., day=..., month=...)] followed by the
    one-day shift when the result is not after [now]; [None] when [int()],
    [replace] or the shift raises. *)
Variable cron_next : list string -> Z -> option Z.

(** [x.isoformat() if x else None] *)
Definition iso_opt (d : option datetime) : option string :=
  match d with
  | Some d => Some (isoformat d)
  | None => None
  end.

(** [datetime.datetime.fromisoformat(x) if x else None] *)
Definition parse_opt (s : option string) : exc (option datetime) :=
  match s with
  | None => Ok None
  | Some s =>
      if String.eqb s "" then Ok None
      else match fromisoformat s with
           | Some d => Ok (Some d)
           | None => Exc "ValueError"
           end
  end.

(** [Task.to_dict] *)
Definition to_dict (t : Task) : TaskRecord :=
  mkRecord (task_id t) (name t) (schedule_type t) (interval t) (cron t)
    (iso_opt (start_time t)) (iso_opt (end_time t)) (max_runs t)
    (enabled t) (run_count t) (iso_opt (last_run t)) (iso_opt (next_run t)).

(** [Task.from_dict]: the constructor, then the three run-state
    assignments. *)
Definition from_dict (data : TaskRecord) (f : fn_result) : exc Task :=
  match parse_opt (r_start_time data) with
  | Exc e => Exc e
  | Ok st =>
  match parse_opt (r_end_time data) with
  | Exc e => Exc e
  | Ok et =>
      let task := new_Task (r_task_id data) (r_name data) f
                    (r_schedule_type data) (r_interval data) (r_cron data)
                    st et (r_max_runs data) (r_enabled data) in
      let task := set_run_count (r_run_count data) task in
      match parse_opt (r_last_run data) with
      | Exc e => Exc e
      | Ok lr =>
          let task := set_last_run lr task in
          match parse_opt (r_next_run data) with
          | Exc e => Exc e
          | Ok nr => Ok (set_next_run nr task)
          end
      end
  end
  end.

(** [_save_tasks] *)
Definition save_tasks (s : Sched) : Sched :=
  mkSched (tasks s) (jobs s) (next_job s)
    (Some (map (fun kt => to_dict (snd kt)) (tasks s))).

(** The [else] branch of the once case: [task.run()], then
    [task.next_run = None] and [task.enabled = False]; an exception of
    [task.run()] skips the assignments and makes [_schedule_task] return
    [False]. *)
Definition run_once_now (now : Z) (s1 : Sched) (t1 : Task)
    : outcome (Sched * Task * bool) :=
  match Task_run now now t1 with
  | (t2, Exc _, _) => Done (s1, t2, false)
  | (t2, Ok _, _) => Done (s1, set_enabled false (set_next_run None t2), true)
  end.

(** [_schedule_task]: returns the scheduler (job list), the task object
    after its mutations, and the boolean result.  Every exception inside is
    caught and turned into [False]. *)
Definition schedule_task (now : Z) (s : Sched) (t : Task)
    : outcome (Sched * Task * bool) :=
  let '(s1, t1) :=
    match job t with
    | Some j => (cancel_job j s, set_job None t)
    | None => (s, t)
    end in
  if negb (enabled t1) then Done (s1, t1, true)
  else if String.eqb (schedule_type t1) "interval" then
    match every_seconds_do now (interval t1) with
    | DoLoops => Loops
    | DoRaises => Done (s1, t1, false)
    | Scheduled _ =>
        let '(s2, j) := register_job s1 in
        let t2 := set_job (Some j) t1 in
        match add_seconds now (interval t1) with
        | Some d => Done (s2, set_next_run (Some (naive d)) t2, true)
        | None => Done (s2, t2, false)
        end
    end
  else if String.eqb (schedule_type t1) "cron" then
    match cron t1 with
    | None => Done (s1, t1, false)
    | Some c =>
        let cron_parts := split_ws c in
        if negb (Nat.eqb (List.length cron_parts) 5) then Done (s1, t1, false)
        else if negb (cron_job_ok cron_parts) then Done (s1, t1, false)
        else
          let '(s2, j) := register_job s1 in
          let t2 := set_job (Some j) t1 in
          match cron_next cron_parts now with
          | None => Done (s2, t2, false)
          | Some nr => Done (s2, set_next_run (Some (naive nr)) t2, true)
          end
    end
  else if String.eqb (schedule_type t1) "once" then
    match start_time t1 with
    | Some st =>
        match dt_utcoffset st with
        | Some _ => Done (s1, t1, false)
        | None =>
            if now <? dt_secs st then
              match every_seconds_do now (dt_secs st - now) with
              | DoLoops => Loops
              | DoRaises => Done (s1, t1, false)
              | Scheduled _ =>
                  let '(s2, j) := register_job s1 in
                  Done (s2, set_next_run (Some st) (set_job (Some j) t1), true)
              end
            else run_once_now now s1 t1
        end
    | None => run_once_now now s1 t1
    end
  else Done (s1, t1, true).

(** [add_task].  The task object is stored first and then mutated by
    [_schedule_task], whose result is ignored; the registry entry and the
    argument are the same object, so the mutated task is written back under
    its id. *)
Definition add_task (now : Z) (s : Sched) (t : Task) : outcome (Sched * bool) :=
  if mem (task_id t) (tasks s) then Done (s, false)
  else
    let s1 := set_tasks (dict_set (task_id t) t (tasks s)) s in
    match schedule_task now s1 t with
    | Loops => Loops
    | Done (s2, t2, _) =>
        let s3 := set_tasks (dict_set (task_id t) t2 (tasks s2)) s2 in
        Done (save_tasks s3, true)
    end.

(** [disable_task] *)
Definition disable_task (s : Sched) (tid : string) : Sched * bool :=
  match find_task tid (tasks s) with
  | None => (s, false)
  | Some t =>
      let t1 := set_enabled false t in
      let '(s1, t2) :=
        match job t1 with
        | Some j => (cancel_job j s, set_job None t1)
        | None => (s, t1)
        end in
      (save_tasks (set_tasks (dict_set tid t2 (tasks s1)) s1), true)
  end.

(** [enable_task] *)
Definition enable_task (now : Z) (s : Sched) (tid : string)
    : outcome (Sched * bool) :=
  match find_task tid (tasks s) with
  | None => Done (s, false)
  | Some t =>
      match schedule_task now s (set_enabled true t) with
      | Loops => Loops
      | Done (s1, t1, _) =>
          Done (save_tasks (set_tasks (dict_set tid t1 (tasks s1)) s1), true)
      end
  end.

(** [run_task]: the task's [run] under the method's own [try/except]; the
    boolean observes whether the work-unit was invoked.  When [task.run()]
    raises, [_save_tasks] is skipped. *)
Definition run_task (now_check now_fire : Z) (s : Sched) (tid : string)
    : Sched * exc (option Z) * bool :=
  match find_task tid (tasks s) with
  | None => (s, Ok None, false)
  | Some t =>
      let '(t1, r, inv) := Task_run now_check now_fire t in
      let s1 := set_tasks (dict_set tid t1 (tasks s)) s in
      match r with
      | Exc _ => (s1, Ok None, inv)
      | Ok v => (save_tasks s1, Ok v, inv)
      end
  end.

(** One firing from [_run_scheduler]: [schedule.run_pending()] calls the
    registered [task.run] of a due task; an exception escaping it is caught
    by the loop's [try/except] and logged.  The result of the job is not
    returned to anyone. *)
Definition loop_fire (now_check now_fire : Z) (s : Sched)
    (tid : string) : Sched * exc unit * bool :=
  match find_task tid (tasks s) with
  | None => (s, Ok tt, false)
  | Some t =>
      let '(t1, r, inv) := Task_run now_check now_fire t in
      let s1 := set_tasks (dict_set tid t1 (tasks s)) s in
      match r with
      | Exc _ => (s1, Ok tt, inv)
      | Ok _ => (s1, Ok tt, inv)
      end
  end.

(** The loop of [_load_tasks] over the records of [tasks.json].  An
    exception (a timestamp that does not parse) leaves the loop, keeping
    the assignments already made, and is caught by the outer [try]. *)
Fixpoint load_records (l : list (string * Task)) (recs : list TaskRecord)
    : list (string * Task) :=
  match recs with
  | [] => l
  | r :: rest =>
      match find_task (r_task_id r) l with
      | None => load_records l rest
      | Some t =>
          let t1 := set_run_count (r_run_count r)
                      (set_enabled (r_enabled r) t) in
          match parse_opt (r_last_run r) with
          | Exc _ => update (r_task_id r) t1 l
          | Ok lr =>
              let t2 := set_last_run lr t1 in
              match parse_opt (r_next_run r) with
              | Exc _ => update (r_task_id r) t2 l
              | Ok nr => load_records (update (r_task_id r) (set_next_run nr t2) l) rest
              end
          end
      end
  end.

(** [_load_tasks] *)
Definition load_tasks (s : Sched) : Sched :=
  match store s with
  | None => s
  | Some recs => set_tasks (load_records (tasks s) recs) s
  end.


End Scheduler.


(** [del self.tasks[k]]: the entry with key [k] is dropped. *)
Fixpoint dict_del (k : string) (l : list (string * Task))
    : list (string * Task) :=
  match l with
  | [] => []
  | (k', t') :: l' => if String.eqb k k' then l' else (k', t') :: dict_del k l'
  end.

(** [remove_task]: [task.job] is cancelled when set; the task itself is
    dropped from the registry, so its handle is not reset. *)
Definition remove_task isoformat (s : Sched) (tid : string) : Sched * bool :=
  match find_task tid (tasks s) with
  | None => (s, false)
  | Some t =>
      let s1 := match job t with
                | Some j => cancel_job j s
                | None => s
                end in
      (save_tasks isoformat (set_tasks (dict_del tid (tasks s1)) s1), true)
  end.

(** The loop of [start] over [self.tasks.values()], given the entries
    still to visit: each task object is rescheduled in turn and, being the
    object held by the registry, the registry sees its mutations. *)
Fixpoint schedule_each cj cn (now : Z) (l : list (string * Task)) (s : Sched)
    : outcome Sched :=
  match l with
  | [] => Done s
  | kt :: l' =>
      match schedule_task cj cn now s (snd kt) with
      | Loops => Loops
      | Done (s', t', _) =>
          schedule_each cj cn now l' (set_tasks (dict_set (fst kt) t' (tasks s')) s')
      end
  end.

Definition schedule_all cj cn (now : Z) (s : Sched) : outcome Sched :=
  schedule_each cj cn now (tasks s) s.

(** [start] without its worker thread: a no-op when already running;
    otherwise [running] is set and every task is rescheduled. *)
Definition start cj cn (now : Z) (running : bool) (s : Sched)
    : outcome (bool * Sched) :=
  if running then Done (running, s)
  else match schedule_all cj cn now s with
       | Loops => Loops
       | Done s' => Done (true, s')
       end.

(** [BrowserAgent.get_scheduled_tasks] (src/level3/agent.py):
    [[task.to_dict() for task in self.task_scheduler.get_tasks()]]. *)
Definition get_scheduled_tasks isoformat (s : Sched) : list TaskRecord :=
  map (to_dict isoformat) (get_tasks s).

(** Well-formed registry: keys are unique and each key is the [task_id] of
    the task stored under it (as [add_task] stores them). *)
Definition wf_registry (l : list (string * Task)) : Prop :=
  NoDup (map fst l) /\ Forall (fun kt => task_id (snd kt) = fst kt) l.

(** The run state of [t0] ([enabled], [run_count], [last_run],
    [next_run]) written onto [t], as [_load_tasks] assigns it. *)
Definition with_run_state (t0 t : Task) : Task :=
  set_next_run (next_run t0) (set_last_run (last_run t0)
    (set_run_count (run_count t0) (set_enabled (enabled t0) t))).

(** The attributes that only the constructor sets: everything but the
    run state and the job handle. *)
Definition same_static (t t' : Task) : Prop :=
  task_id t' = task_id t /\ name t' = name t /\ function t' = function t /\
  schedule_type t' = schedule_type t /\ interval t' = interval t /\
  cron t' = cron t /\ start_time t' = start_time t /\
  end_time t' = end_time t /\ max_runs t' = max_runs t.

(** [run_count] does not exceed [max_runs] when it is set. *)
Definition within_max_runs (t : Task) : Prop :=
  match max_runs t with
  | Some m => run_count t <= m
  | None => True
  end.

Definition registry_within (l : list (string * Task)) : Prop :=
  Forall (fun kt => within_max_runs (snd kt)) l.

(** [Task.run] applied to the successive firings [(now_check, now_fire)];
    the list collects whether each call invoked the work-unit. *)
Fixpoint Task_run_seq (times : list (Z * Z)) (t : Task) : Task * list bool :=
  match times with
  | [] => (t, [])
  | (nc, nf) :: ts =>
      let '(t1, _, inv) := Task_run nc nf t in
      let '(t2, invs) := Task_run_seq ts t1 in
      (t2, inv :: invs)
  end.

(** * Concrete inputs *)

(** A concrete ISO-like codec: ["L"] (naive) or ["A"] (aware) and the
    seconds, then for an aware datetime the offset; a number is a sign
    letter followed by the binary digits of its magnitude, least
    significant first. *)
Fixpoint enc_pos (p : positive) : string :=
  match p with
  | xH => ""
  | xO p => String "0" (enc_pos p)
  | xI p => String "1" (enc_pos p)
  end.

Definition enc_Z (z : Z) : string :=
  match z with
  | Z0 => "Z"
  | Zpos p => String "P" (enc_pos p)
  | Zneg p => String "N" (enc_pos p)
  end.

(** Reads the binary digits at the head of a string. *)
Fixpoint dec_bits (s : string) : positive * string :=
  match s with
  | String c rest =>
      if Ascii.eqb c "0"%char then let '(p, r) := dec_bits rest in (xO p, r)
      else if Ascii.eqb c "1"%char then let '(p, r) := dec_bits rest in (xI p, r)
      else (xH, s)
  | EmptyString => (xH, EmptyString)
  end.

Definition dec_Z (s : string) : option (Z * string) :=
  match s with
  | String c rest =>
      if Ascii.eqb c "Z"%char then Some (Z0, rest)
      else if Ascii.eqb c "P"%char then let '(p, r) := dec_bits rest in Some (Zpos p, r)
      else if Ascii.eqb c "N"%char then let '(p, r) := dec_bits rest in Some (Zneg p, r)
      else None
  | EmptyString => None
  end.

Definition sample_isoformat (d : datetime) : string :=
  match dt_utcoffset d with
  | None => String "L" (enc_Z (dt_secs d))
  | Some o => String "A" (enc_Z (dt_secs d) ++ enc_Z o)
  end.

Definition sample_fromisoformat (s : string) : option datetime :=
  match s with
  | String c rest =>
      if Ascii.eqb c "L"%char then
        match dec_Z rest with
        | Some (z, EmptyString) => Some (naive z)
        | _ => None
        end
      else if Ascii.eqb c "A"%char then
        match dec_Z rest with
        | Some (z, r) =>
            match dec_Z r with
            | Some (o, EmptyString) => Some (mkDatetime z (Some o))
            | _ => None
            end
        | None => None
        end
      else None
  | EmptyString => None
  end.

(** The [schedule] library as it behaves on [schedule.every().at(...)]
    (a job without a unit: it raises), and a calendar that never
    raises. *)
Definition lib_raises (_ : list string) : bool := false.
Definition lib_builds (_ : list string) : bool := true.
Definition cal_next_day (_ : list string) (now : Z) : option Z :=
  Some (now + 86400).

Definition empty_sched : Sched := mkSched [] [] 0%nat None.

(** An interval task with [max_runs=1]. *)
Definition task_max1 : Task :=
  new_Task "t1" "report" (Returns 7) "interval" 60 None None None (Some 1) true.

(** A second task with the same id. *)
Definition task_dup : Task :=
  new_Task "t1" "other" (Returns 8) "interval" 30 None None None None true.

(** A disabled interval task. *)
Definition task_disabled : Task :=
  new_Task "t1" "report" (Returns 7) "interval" 60 None None None None false.

(** An enabled interval task whose work-unit raises. *)
Definition task_raising : Task :=
  new_Task "t1" "report" (Raises "boom") "interval" 60 None None None None true.

(** An enabled interval task whose [end_time] carries a UTC offset. *)
Definition task_aware_end : Task :=
  new_Task "t1" "report" (Returns 7) "interval" 60 None None
    (Some (mkDatetime 100 (Some 0))) None true.

(** A cron task constraining both day-of-month and day-of-week. *)
Definition task_cron_dom_dow : Task :=
  new_Task "c1" "monthly" (Returns 1) "cron" 60 (Some "0 12 1 * 1"%string) None None
    None true.

(** An interval task with [interval=0]. *)
Definition task_interval0 : Task :=
  new_Task "t0" "spin" (Returns 1) "interval" 0 None None None None true.

(** A registered task with a pending job and a computed [next_run]. *)
Definition task_scheduled : Task :=
  mkTask "t1" "report" (Returns 7) "interval" 60 None None None None true 3
    (Some (naive 40)) (Some (naive 100)) (Some 0%nat).

Definition sched_one (t : Task) : Sched :=
  mkSched [(task_id t, t)] [0%nat] 1%nat None.



(** A one-shot task without [start_time]. *)
Definition task_once : Task :=
  new_Task "o1" "once" (Returns 3) "once" 60 None None None None true.


(** A one-shot task whose [start_time] (second 10) has passed. *)
Definition task_once_past : Task :=
  new_Task "o2" "now" (Returns 3) "once" 60 None (Some (naive 10)) None None
    true.

(** A cron expression with four fields, the first two separated by a form
    feed ([\x0c]), which [str.split()] treats as whitespace. *)
Definition cron_four_fields : string :=
  String "0" (String (ascii_of_nat 12) "12 * *").

Definition task_cron_short : Task :=
  new_Task "c2" "daily" (Returns 1) "cron" 60 (Some cron_four_fields) None None
    None true.

(** * Datetime arithmetic *)

Lemma timedelta_ok_range (n : Z) :
  - max_secs <= n <= max_secs -> timedelta_ok n = true.
Proof.
  unfold max_secs. intros Hn. unfold timedelta_ok.
  apply andb_true_intro; split; apply Z.leb_le.
  - apply Z.div_le_lower_bound; lia.
  - apply Z.div_le_upper_bound; lia.
Qed.

Lemma add_seconds_in (d n : Z) :
  0 <= d <= max_secs -> 0 <= d + n <= max_secs -> add_seconds d n = Some (d + n).
Proof.
  intros Hd Hdn. unfold add_seconds.
  rewrite timedelta_ok_range by lia.
  replace (0 <=? d + n) with true by (symmetry; apply Z.leb_le; lia).
  replace (d + n <=? max_secs) with true by (symmetry; apply Z.leb_le; lia).
  reflexivity.
Qed.

Lemma add_seconds_out (d n : Z) :
  d + n < 0 \/ max_secs < d + n -> add_seconds d n = None.
Proof.
  intros H. unfold add_seconds.
  destruct (timedelta_ok n); simpl; [|reflexivity].
  destruct H as [H|H].
  - replace (0 <=? d + n) with false by (symmetry; apply Z.leb_gt; lia). reflexivity.
  - replace (d + n <=? max_secs) with false by (symmetry; apply Z.leb_gt; lia).
    rewrite andb_false_r. reflexivity.
Qed.

Lemma add_seconds_some (d n x : Z) :
  add_seconds d n = Some x -> x = d + n /\ 0 <= x <= max_secs.
Proof.
  unfold add_seconds.
  destruct (timedelta_ok n && (0 <=? d + n) && (d + n <=? max_secs)) eqn:E;
    [|discriminate].
  intros H. injection H as <-.
  apply andb_prop in E as [E E3]. apply andb_prop in E as [_ E2].
  apply Z.leb_le in E2, E3. lia.
Qed.

(** * The interval job of the [schedule] library *)

Lemma every_seconds_do_loops (now n : Z) :
  every_seconds_do now n = DoLoops -> n = 0.
Proof.
  unfold every_seconds_do.
  destruct (negb (timedelta_ok n)); [discriminate|].
  destruct (if Z.eqb n 1 then Some now else add_seconds now n) as [nr|];
    [|discriminate].
  destruct (now <? nr); [discriminate|].
  destruct (Z.eqb_spec n 0); [auto|].
  destruct (n <? 0); [discriminate|].
  destruct (add_seconds nr n); discriminate.
Qed.

Lemma every_seconds_do_pos (now n : Z) :
  0 <= now -> 0 < n -> now + n <= max_secs ->
  every_seconds_do now n = Scheduled (now + n).
Proof.
  intros H0 Hn Hmax. unfold every_seconds_do.
  rewrite timedelta_ok_range by (unfold max_secs in *; lia). simpl.
  destruct (Z.eqb_spec n 1) as [->|Hn1].
  - replace (now <? now) with false by (symmetry; apply Z.ltb_ge; lia).
    replace (Z.eqb 1 0) with false by reflexivity.
    replace (1 <? 0) with false by reflexivity.
    rewrite add_seconds_in by lia. reflexivity.
  - rewrite add_seconds_in by lia.
    replace (now <? now + n) with true by (symmetry; apply Z.ltb_lt; lia).
    reflexivity.
Qed.

Lemma every_seconds_do_zero (now : Z) :
  0 <= now <= max_secs -> every_seconds_do now 0 = DoLoops.
Proof.
  intros Hnow. unfold every_seconds_do. simpl.
  rewrite add_seconds_in by lia.
  replace (now <? now + 0) with false by (symmetry; apply Z.ltb_ge; lia).
  reflexivity.
Qed.

Lemma every_seconds_do_raises (now n : Z) :
  n < 0 \/ max_secs < now + n -> every_seconds_do now n = DoRaises.
Proof.
  intros Hn. unfold every_seconds_do.
  destruct (timedelta_ok n); simpl; [|reflexivity].
  destruct (Z.eqb_spec n 1) as [->|Hn1].
  - replace (now <? now) with false by (symmetry; apply Z.ltb_ge; lia).
    simpl. rewrite add_seconds_out by lia. reflexivity.
  - destruct (add_seconds now n) as [nr|] eqn:E; [|reflexivity].
    apply add_seconds_some in E as [-> Hr].
    replace (now <? now + n) with false by (symmetry; apply Z.ltb_ge; lia).
    destruct (Z.eqb_spec n 0); [lia|].
    replace (n <? 0) with true by (symmetry; apply Z.ltb_lt; lia).
    reflexivity.
Qed.

(** With a negative period the loop walks down to [datetime.min] and
    raises. *)
Lemma loop_ends_negative (now n : Z) :
  n < 0 ->
  forall (k : nat) (nr : Z), 0 <= nr -> (Z.to_nat nr <= k)%nat -> nr <= now ->
  loop_ends now n nr DoRaises.
Proof.
  intros Hn k. induction k as [|k IH]; intros nr H0 Hk Hle.
  - apply loop_overflow; [exact Hle|]. apply add_seconds_out. lia.
  - destruct (add_seconds nr n) as [nr'|] eqn:E.
    + pose proof (add_seconds_some _ _ _ E) as [-> Hr].
      apply (loop_step now n nr (nr + n)); [exact Hle|exact E|].
      apply IH; lia.
    + apply loop_overflow; assumption.
Qed.

(** With a zero period the loop never leaves [now]. *)
Lemma loop_ends_zero (now : Z) :
  0 <= now <= max_secs -> forall nr r, loop_ends now 0 nr r -> nr <> now.
Proof.
  intros Hnow nr r Hl.
  induction Hl as [y Hlt|y Hle Hadd|y y' r' Hle Hadd Hl' IH].
  - lia.
  - intros ->. rewrite add_seconds_in in Hadd by lia. discriminate.
  - apply add_seconds_some in Hadd as [-> _]. lia.
Qed.

(** The closed form [every_seconds_do] is the loop of
    [_schedule_next_run]: for [interval != 0] the loop started from the
    first [next_run] ends with its result, and for [interval = 0] the loop
    started from [now] never ends. *)
Lemma every_seconds_do_sound (now n : Z) :
  0 <= now <= max_secs -> timedelta_ok n = true ->
  (n <> 0 ->
   match (if Z.eqb n 1 then Some now else add_seconds now n) with
   | Some nr => loop_ends now n nr (every_seconds_do now n)
   | None => every_seconds_do now n = DoRaises
   end) /\
  (n = 0 -> forall r, ~ loop_ends now n now r).
Proof.
  intros Hnow Htd. split.
  - intros Hn0. unfold every_seconds_do. rewrite Htd. simpl.
    destruct (if Z.eqb n 1 then Some now else add_seconds now n) as [nr|] eqn:E;
      [|reflexivity].
    assert (Hnr : nr = now \/ (nr = now + n /\ 0 <= nr <= max_secs)).
    { destruct (Z.eqb n 1).
      - injection E as <-. left; reflexivity.
      - apply add_seconds_some in E. right; exact E. }
    destruct (Z.ltb_spec now nr) as [Hlt|Hge].
    + apply loop_exit. exact Hlt.
    + replace (Z.eqb n 0) with false by (symmetry; apply Z.eqb_neq; exact Hn0).
      destruct (Z.ltb_spec n 0) as [Hneg|Hpos].
      * apply (loop_ends_negative now n Hneg (Z.to_nat nr)); lia.
      * assert (nr = now) by lia. subst nr.
        destruct (add_seconds now n) as [nr'|] eqn:E2.
        -- pose proof (add_seconds_some _ _ _ E2) as [-> Hr].
           apply (loop_step now n now (now + n)); [lia|exact E2|].
           apply loop_exit. lia.
        -- apply loop_overflow; [lia|exact E2].
  - intros -> r Hl.
    apply (loop_ends_zero now Hnow now r Hl). reflexivity.
Qed.

(** * Registry lemmas *)

Lemma set_tasks_same (s : Sched) : set_tasks (tasks s) s = s.
Proof. destruct s; reflexivity. Qed.

Lemma mem_find (k : string) (l : list (string * Task)) :
  mem k l = match find_task k l with Some _ => true | None => false end.
Proof.
  induction l as [|[k' t'] l IH]; simpl; [reflexivity|].
  destruct (String.eqb k k'); simpl; auto.
Qed.

Lemma find_update_same (k : string) (t : Task) (l : list (string * Task)) :
  find_task k (update k t l) = option_map (fun _ => t) (find_task k l).
Proof.
  induction l as [|[k' t'] l IH]; simpl; [reflexivity|].
  destruct (String.eqb k k') eqn:E; simpl; rewrite ?E; auto.
Qed.

Lemma find_update_other (k k' : string) (t : Task) (l : list (string * Task)) :
  k <> k' -> find_task k (update k' t l) = find_task k l.
Proof.
  intros Hne. induction l as [|[k'' t''] l IH]; simpl; [reflexivity|].
  destruct (String.eqb k' k'') eqn:E1; simpl.
  - apply String.eqb_eq in E1. subst k''.
    destruct (String.eqb k k') eqn:E2; [apply String.eqb_eq in E2; congruence|].
    reflexivity.
  - destruct (String.eqb k k''); auto.
Qed.

Lemma update_found (k : string) (t : Task) (l : list (string * Task)) :
  find_task k l = Some t -> update k t l = l.
Proof.
  induction l as [|[k' t'] l IH]; simpl; [discriminate|].
  destruct (String.eqb k k') eqn:E.
  - intros H. injection H as <-. apply String.eqb_eq in E. subst. reflexivity.
  - intros H. rewrite IH by exact H. reflexivity.
Qed.

Lemma map_fst_update (k : string) (t : Task) (l : list (string * Task)) :
  map fst (update k t l) = map fst l.
Proof.
  induction l as [|[k' t'] l IH]; simpl; [reflexivity|].
  destruct (String.eqb k k'); simpl; rewrite ?IH; reflexivity.
Qed.


Lemma find_dict_set_same (k : string) (t : Task) (l : list (string * Task)) :
  find_task k (dict_set k t l) = Some t.
Proof.
  unfold dict_set. rewrite mem_find.
  destruct (find_task k l) eqn:E.
  - rewrite find_update_same, E. reflexivity.
  - induction l as [|[k' t'] l IH]; simpl in *.
    + rewrite String.eqb_refl. reflexivity.
    + destruct (String.eqb k k'); [discriminate|]. auto.
Qed.

Lemma dict_set_found (k : string) (t t' : Task) (l : list (string * Task)) :
  find_task k l = Some t' -> dict_set k t l = update k t l.
Proof.
  intros H. unfold dict_set. rewrite mem_find, H. reflexivity.
Qed.

Lemma mem_in (k : string) (l : list (string * Task)) :
  mem k l = true <-> In k (map fst l).
Proof.
  induction l as [|[k' t'] l IH]; simpl; [split; [discriminate|tauto]|].
  rewrite Bool.orb_true_iff, IH, String.eqb_eq. split; intros [H|H]; auto.
Qed.


Lemma find_some_in (k : string) (t : Task) (l : list (string * Task)) :
  find_task k l = Some t -> In (k, t) l.
Proof.
  induction l as [|[k' t'] l IH]; simpl; [discriminate|].
  destruct (String.eqb_spec k k') as [->|_]; [intros H; injection H as <-; auto|].
  intros H. right. auto.
Qed.

Lemma find_not_in (k : string) (l : list (string * Task)) :
  ~ In k (map fst l) -> find_task k l = None.
Proof.
  intros H. destruct (find_task k l) eqn:E; [|reflexivity].
  exfalso. apply H. apply find_some_in in E.
  change k with (fst (k, t)). apply in_map. exact E.
Qed.

Lemma in_find_nodup (k : string) (t : Task) (l : list (string * Task)) :
  NoDup (map fst l) -> In (k, t) l -> find_task k l = Some t.
Proof.
  induction l as [|[k' t'] l IH]; simpl; [tauto|].
  intros Hnd Hin. inversion Hnd as [|? ? Hnin Hnd']; subst.
  destruct (String.eqb_spec k k') as [->|Hne].
  - destruct Hin as [E|Hin]; [injection E as <-; reflexivity|].
    exfalso. apply Hnin. change k' with (fst (k', t)). apply in_map. exact Hin.
  - destruct Hin as [E|Hin]; [injection E as -> ->; congruence|]. auto.
Qed.

Lemma wf_find_task_id (l : list (string * Task)) (k : string) (t : Task) :
  wf_registry l -> find_task k l = Some t -> task_id t = k.
Proof.
  intros [_ Hf] Hk. apply find_some_in in Hk.
  rewrite Forall_forall in Hf. exact (Hf _ Hk).
Qed.

Lemma find_dict_set_other (k k' : string) (t : Task) (l : list (string * Task)) :
  k <> k' -> find_task k (dict_set k' t l) = find_task k l.
Proof.
  intros Hne. unfold dict_set. destruct (mem k' l).
  - apply find_update_other. exact Hne.
  - induction l as [|[k'' t''] l IH]; simpl.
    + destruct (String.eqb_spec k k'); [congruence|reflexivity].
    + destruct (String.eqb k k''); auto.
Qed.

Lemma update_forall (P : string * Task -> Prop) (k : string) (t : Task)
    (l : list (string * Task)) :
  Forall P l -> P (k, t) -> Forall P (update k t l).
Proof.
  induction 1 as [|[k' t'] l Hx Hl IH]; simpl; intros Hp; [constructor|].
  destruct (String.eqb_spec k k') as [->|_]; constructor; auto.
Qed.

Lemma dict_set_forall (P : string * Task -> Prop) (k : string) (t : Task)
    (l : list (string * Task)) :
  Forall P l -> P (k, t) -> Forall P (dict_set k t l).
Proof.
  intros Hl Hp. unfold dict_set. destruct (mem k l).
  - apply update_forall; assumption.
  - apply Forall_app. split; [exact Hl|]. constructor; [exact Hp|constructor].
Qed.

Lemma wf_dict_set (l : list (string * Task)) (k : string) (t : Task) :
  wf_registry l -> task_id t = k -> wf_registry (dict_set k t l).
Proof.
  intros [Hnd Hf] Hk. unfold wf_registry. split.
  - unfold dict_set. destruct (mem k l) eqn:Hm.
    + rewrite map_fst_update. exact Hnd.
    + rewrite map_app. simpl. apply NoDup_app; [exact Hnd| |].
      * constructor; [tauto|constructor].
      * intros x Hx [<-|[]]. apply (proj2 (mem_in k l)) in Hx. congruence.
  - apply (dict_set_forall (fun kt => task_id (snd kt) = fst kt)); assumption.
Qed.

Lemma map_fst_dict_set_found (k : string) (t t' : Task) (l : list (string * Task)) :
  find_task k l = Some t' -> map fst (dict_set k t l) = map fst l.
Proof.
  intros H. rewrite (dict_set_found k t t' l H). apply map_fst_update.
Qed.

Lemma find_dict_del_same (k : string) (l : list (string * Task)) :
  NoDup (map fst l) -> find_task k (dict_del k l) = None.
Proof.
  induction l as [|[k' t'] l IH]; simpl; [reflexivity|].
  intros Hnd. inversion Hnd as [|? ? Hnin Hnd']; subst.
  destruct (String.eqb_spec k k') as [->|Hne].
  - destruct (find_task k' l) eqn:E; [|reflexivity].
    exfalso. apply Hnin. apply (proj1 (mem_in k' l)).
    rewrite mem_find, E. reflexivity.
  - simpl. destruct (String.eqb_spec k k'); [congruence|]. auto.
Qed.

Lemma find_dict_del_other (k k' : string) (l : list (string * Task)) :
  k <> k' -> find_task k (dict_del k' l) = find_task k l.
Proof.
  intros Hne. induction l as [|[k'' t''] l IH]; simpl; [reflexivity|].
  destruct (String.eqb_spec k' k'') as [->|_].
  - destruct (String.eqb_spec k k''); [congruence|reflexivity].
  - simpl. destruct (String.eqb k k''); auto.
Qed.

Lemma dict_del_incl (k : string) (l : list (string * Task)) x :
  In x (dict_del k l) -> In x l.
Proof.
  induction l as [|[k' t'] l IH]; simpl; [tauto|].
  destruct (String.eqb k k'); simpl; [auto|]. intros [H|H]; auto.
Qed.

Lemma dict_del_forall (P : string * Task -> Prop) (k : string)
    (l : list (string * Task)) :
  Forall P l -> Forall P (dict_del k l).
Proof.
  rewrite !Forall_forall. intros H x Hx. apply H. eapply dict_del_incl. exact Hx.
Qed.

Lemma wf_dict_del (k : string) (l : list (string * Task)) :
  wf_registry l -> wf_registry (dict_del k l).
Proof.
  intros [Hnd Hf]. split.
  - induction l as [|[k' t'] l IH]; simpl; [constructor|].
    inversion Hnd as [|? ? Hnin Hnd']; subst. inversion Hf; subst.
    destruct (String.eqb k k'); [exact Hnd'|].
    simpl. constructor; [|auto].
    intros Hin. apply Hnin. apply in_map_iff in Hin.
    destruct Hin as [x [<- Hx]]. apply in_map. eapply dict_del_incl. exact Hx.
  - apply (dict_del_forall (fun kt => task_id (snd kt) = fst kt)). exact Hf.
Qed.

Lemma length_dict_del (k : string) (l : list (string * Task)) :
  mem k l = true -> List.length (dict_del k l) = (List.length l - 1)%nat.
Proof.
  induction l as [|[k' t'] l IH]; simpl; [discriminate|].
  destruct (String.eqb k k'); simpl; [lia|].
  intros Hm. rewrite IH by exact Hm. destruct l; simpl in *; [discriminate|lia].
Qed.

Lemma cancel_job_removes (j : Job) (s : Sched) : ~ In j (jobs (cancel_job j s)).
Proof.
  destruct s as [ts js nj st]; simpl. rewrite filter_In.
  intros [_ H]. rewrite Nat.eqb_refl in H. discriminate.
Qed.

Lemma in_jobs_cancel x j s : In x (jobs (cancel_job j s)) <-> In x (jobs s) /\ x <> j.
Proof.
  destruct s; simpl. rewrite filter_In. split.
  - intros [H1 H2]. split; [exact H1|]. intros ->. rewrite Nat.eqb_refl in H2. discriminate.
  - intros [H1 H2]. split; [exact H1|]. destruct (Nat.eqb_spec j x); [congruence|reflexivity].
Qed.

Lemma store_save iso (s : Sched) :
  store (save_tasks iso s) = Some (get_scheduled_tasks iso (save_tasks iso s)).
Proof.
  unfold save_tasks, get_scheduled_tasks, get_tasks. simpl.
  rewrite map_map. reflexivity.
Qed.

Lemma save_tasks_idem iso (s : Sched) :
  save_tasks iso (save_tasks iso s) = save_tasks iso s.
Proof. destruct s; reflexivity. Qed.

(** * [Task.run] and [_schedule_task] *)

Lemma same_static_refl (t : Task) : same_static t t.
Proof. repeat split. Qed.

Lemma same_static_trans (t1 t2 t3 : Task) :
  same_static t1 t2 -> same_static t2 t3 -> same_static t1 t3.
Proof. unfold same_static. intuition congruence. Qed.

(** The run-state part of [Task.run]: the constructor attributes and the
    job handle are never touched, [run_count] stays within [max_runs], and
    a propagated exception leaves the task as it was. *)
Lemma Task_run_facts (nc nf : Z) (t : Task) :
  let '(t', r, _) := Task_run nc nf t in
  same_static t t' /\ job t' = job t /\
  (within_max_runs t -> within_max_runs t') /\
  (forall e, r = Exc e -> t' = t).
Proof.
  unfold Task_run, reached_max_runs.
  destruct (max_runs t) as [m|] eqn:Em.
  all: repeat match goal with
       | |- context [if ?b then _ else _] =>
           let E := fresh "E" in destruct b eqn:E
       | |- context [match ?x with Ok _ => _ | Exc _ => _ end] =>
           let E := fresh "E" in destruct x eqn:E
       | |- context [match ?x with Returns _ => _ | Raises _ => _ end] =>
           let E := fresh "E" in destruct x eqn:E
       | |- context [match ?x with Some _ => _ | None => _ end] =>
           let E := fresh "E" in destruct x eqn:E
       end.
  all: unfold same_static, within_max_runs; cbn; rewrite ?Em.
  all: repeat split; try reflexivity; try (intros; discriminate); try tauto.
  all: match goal with E : (_ <=? _) = false |- _ => apply Z.leb_gt in E; lia end.
Qed.

(** Case analysis on a hypothesis [schedule_task ... = Done ...] or
    [schedule_task ... = Loops]: every branch, with the facts of each
    [Task.run] it calls. *)
Ltac sched_cases H :=
  unfold schedule_task, run_once_now in H;
  let Ej := fresh "Ej" in
  destruct (job _) as [?j|] eqn:Ej; cbn [set_job enabled schedule_type
    interval cron start_time register_job negb] in H;
  repeat match type of H with
  | context [Task_run ?a ?b ?c] =>
      let E := fresh "E" in
      pose proof (Task_run_facts a b c) as E;
      destruct (Task_run a b c) as [[?t ?r] ?b];
      cbn beta iota in E; destruct E as (?Es & ?Ej & ?Ew & ?Ex)
  | context [if ?b then _ else _] =>
      let E := fresh "E" in destruct b eqn:E
  | context [match every_seconds_do ?a ?b with _ => _ end] =>
      let E := fresh "E" in destruct (every_seconds_do a b) eqn:E
  | context [match ?x with Some _ => _ | None => _ end] =>
      let E := fresh "E" in destruct x eqn:E
  | context [match ?x with Ok _ => _ | Exc _ => _ end] =>
      let E := fresh "E" in destruct x eqn:E
  end;
  try discriminate H.

(** [_schedule_task] never returns while its task is enabled, of type
    interval and has [interval = 0]; in every other case it returns. *)
Lemma schedule_task_loops cj cn (now : Z) (s : Sched) (t : Task) :
  schedule_task cj cn now s t = Loops ->
  enabled t = true /\ schedule_type t = "interval"%string /\ interval t = 0.
Proof.
  intros H. sched_cases H.
  all: repeat match goal with
       | E : every_seconds_do _ _ = DoLoops |- _ => apply every_seconds_do_loops in E
       | E : negb _ = false |- _ => apply negb_false_iff in E
       | E : String.eqb _ _ = true |- _ => apply String.eqb_eq in E
       | E : (_ <? _) = true |- _ => apply Z.ltb_lt in E
       end.
  all: try (repeat split; assumption).
  all: lia.
Qed.

Lemma schedule_task_returns cj cn (now : Z) (s : Sched) (t : Task) :
  enabled t = false \/ schedule_type t <> "interval"%string \/ interval t <> 0 ->
  exists x, schedule_task cj cn now s t = Done x.
Proof.
  intros H. destruct (schedule_task cj cn now s t) as [x|] eqn:E; [eauto|].
  apply schedule_task_loops in E. exfalso. intuition congruence.
Qed.

(** What a returning [_schedule_task] changes: only the job list (the old
    handle cancelled, at most one new job appended) and the task's run
    state, which only the once branch's [task.run()] can advance. *)
Lemma schedule_task_done cj cn (now : Z) (s s' : Sched) (t t' : Task) (ok : bool) :
  schedule_task cj cn now s t = Done (s', t', ok) ->
  let s1 := match job t with Some j => cancel_job j s | None => s end in
  tasks s' = tasks s /\ store s' = store s /\
  ((jobs s' = jobs s1 /\ job t' = None /\ next_job s' = next_job s1) \/
   (jobs s' = jobs s1 ++ [next_job s1] /\ job t' = Some (next_job s1) /\
    next_job s' = S (next_job s1))) /\
  same_static t t' /\ (within_max_runs t -> within_max_runs t') /\
  (schedule_type t <> "once"%string ->
   run_count t' = run_count t /\ last_run t' = last_run t).
Proof.
  intros H. cbv zeta. sched_cases H.
  all: injection H as <- <- <-.
  all: split; [reflexivity|]; split; [reflexivity|].
  all: split;
       [ first [ left; repeat split; solve [cbn in *; congruence]
               | right; repeat split; solve [cbn in *; congruence] ]
       |].
  all: split; [unfold same_static in *; cbn in *; intuition congruence|].
  all: split; [unfold within_max_runs in *; cbn in *; tauto|].
  all: intros Hne; split; cbn;
       first [ reflexivity
             | exfalso; apply Hne; apply String.eqb_eq; assumption ].
Qed.

(** * Loading and the sample codec *)





Lemma append_empty (s : string) : (s ++ "")%string = s.
Proof. induction s as [|c s IH]; simpl; [reflexivity|rewrite IH; reflexivity]. Qed.

Lemma dec_bits_enc (p : positive) (r : string) :
  (forall c rest, r = String c rest -> c <> "0"%char /\ c <> "1"%char) ->
  dec_bits (enc_pos p ++ r) = (p, r).
Proof.
  intros Hr. induction p as [p IH|p IH|]; cbn [enc_pos append].
  - cbn [dec_bits]. rewrite IH. reflexivity.
  - cbn [dec_bits]. rewrite IH. reflexivity.
  - destruct r as [|c rest]; [reflexivity|].
    destruct (Hr c rest eq_refl) as [H0 H1].
    cbn [dec_bits].
    rewrite (proj2 (Ascii.eqb_neq c "0"%char) H0),
            (proj2 (Ascii.eqb_neq c "1"%char) H1).
    reflexivity.
Qed.

Lemma dec_Z_enc (z : Z) (r : string) :
  (forall c rest, r = String c rest -> c <> "0"%char /\ c <> "1"%char) ->
  dec_Z (enc_Z z ++ r) = Some (z, r).
Proof.
  intros Hr. destruct z as [|p|p]; simpl; [reflexivity| |];
    rewrite (dec_bits_enc p r Hr); reflexivity.
Qed.

Lemma sample_iso_nonempty (d : datetime) : sample_isoformat d <> ""%string.
Proof. unfold sample_isoformat. destruct (dt_utcoffset d); discriminate. Qed.

Lemma sample_iso_roundtrip (d : datetime) :
  sample_fromisoformat (sample_isoformat d) = Some d.
Proof.
  destruct d as [z [o|]]; unfold sample_isoformat, sample_fromisoformat; simpl.
  - rewrite dec_Z_enc.
    + pose proof (dec_Z_enc o "" ltac:(discriminate)) as Ho.
      rewrite append_empty in Ho. rewrite Ho. reflexivity.
    + intros c rest E. destruct o; simpl in E; injection E as <- _;
        split; discriminate.
  - pose proof (dec_Z_enc z "" ltac:(discriminate)) as Hz.
    rewrite append_empty in Hz. rewrite Hz. reflexivity.
Qed.

(** * The loop of [start] *)

(** A property of tasks that [_schedule_task] keeps holds of every entry
    after the loop of [start]. *)
Lemma schedule_each_forall cj cn (now : Z) (Q : Task -> Prop) :
  (forall s t s' t' b, schedule_task cj cn now s t = Done (s', t', b) ->
     Q t -> Q t') ->
  forall (l : list (string * Task)) (s s' : Sched),
  Forall (fun kt => Q (snd kt)) l -> Forall (fun kt => Q (snd kt)) (tasks s) ->
  schedule_each cj cn now l s = Done s' ->
  Forall (fun kt => Q (snd kt)) (tasks s').
Proof.
  intros HQ l. induction l as [|[k t] l IH]; intros s s' Hl Hs H; simpl in H.
  - injection H as <-. exact Hs.
  - inversion Hl as [|? ? Ht Hl']; subst.
    destruct (schedule_task cj cn now s t) as [[[s1 t1] b]|] eqn:E;
      [|discriminate].
    refine (IH _ _ Hl' _ H).
    simpl. pose proof (schedule_task_done _ _ _ _ _ _ _ _ E) as [Ht1 _].
    apply (dict_set_forall (fun kt => Q (snd kt))).
    + rewrite Ht1. exact Hs.
    + exact (HQ _ _ _ _ _ E Ht).
Qed.

(** The loop of [start] never returns when some entry it reaches is an
    enabled interval task with [interval = 0]; otherwise it returns. *)
Lemma schedule_each_returns cj cn (now : Z) (l : list (string * Task)) (s : Sched) :
  Forall (fun kt => enabled (snd kt) = false \/
                    schedule_type (snd kt) <> "interval"%string \/
                    interval (snd kt) <> 0) l ->
  exists s', schedule_each cj cn now l s = Done s'.
Proof.
  revert s. induction l as [|[k t] l IH]; intros s Hl; simpl; [eauto|].
  inversion Hl as [|? ? Ht Hl']; subst.
  destruct (schedule_task_returns cj cn now s t Ht) as [[[s1 t1] b] E].
  rewrite E. apply IH. exact Hl'.
Qed.

(** * Claims *)

(** C10: when an enabled task within its limits (max_runs not reached,
    end-time check [False]) has a work-unit that raises, [Task.run] returns
    [None] and the task object is exactly as it was (run_count, last_run,
    next_run, enabled, and every other field). *)
Theorem Task_run_error_keeps_state (now_check now_fire : Z) (t : Task)
    (msg : string) :
  enabled t = true ->
  reached_max_runs t = false ->
  past_end_time now_check t = Ok false ->
  function t = Raises msg ->
  Task_run now_check now_fire t = (t, Ok None, true).
Proof.
  intros Hen Hmax Hend Hf. unfold Task_run.
  rewrite Hen, Hmax, Hend, Hf. reflexivity.
Qed.

Lemma Task_run_error_keeps_state_witness :
  enabled task_raising = true /\ reached_max_runs task_raising = false /\
  past_end_time 10 task_raising = Ok false /\
  function task_raising = Raises "boom" /\
  Task_run 10 11 task_raising = (task_raising, Ok None, true).
Proof.
  refine (conj eq_refl (conj eq_refl (conj eq_refl (conj eq_refl _)))).
  apply (Task_run_error_keeps_state 10 11 task_raising "boom");
    reflexivity.
Defined.

(** C1 (counterexample): [run_task] on a registered disabled task does not
    invoke its work-unit: it returns [None]. *)
Lemma run_task_disabled_cex :
  let '(_, r, invoked) :=
    run_task sample_isoformat 10 11 (sched_one task_disabled) "t1" in
  r = Ok None /\ invoked = false.
Proof. split; reflexivity. Qed.

(** C1 (amended): [run_task] on a registered disabled task never invokes
    the work-unit whatever its limits: it returns [None], and the only
    effect is re-saving [tasks.json]. *)
Theorem run_task_disabled_skips iso now_check now_fire (s : Sched)
    (tid : string) (t : Task) :
  find_task tid (tasks s) = Some t ->
  enabled t = false ->
  run_task iso now_check now_fire s tid = (save_tasks iso s, Ok None, false).
Proof.
  intros Hf Hen. unfold run_task. rewrite Hf. unfold Task_run.
  rewrite Hen. simpl.
  rewrite (dict_set_found _ _ _ _ Hf), (update_found _ _ _ Hf),
    set_tasks_same.
  reflexivity.
Qed.

Lemma run_task_disabled_skips_witness :
  find_task "t1" (tasks (sched_one task_disabled)) = Some task_disabled /\
  enabled task_disabled = false /\
  run_task sample_isoformat 10 11 (sched_one task_disabled) "t1"
    = (save_tasks sample_isoformat (sched_one task_disabled), Ok None, false).
Proof.
  refine (conj eq_refl (conj eq_refl _)).
  apply (run_task_disabled_skips sample_isoformat 10 11
           (sched_one task_disabled) "t1" task_disabled); reflexivity.
Defined.

(** C2 (counterexample): an exception of the work-unit does not propagate
    out of [run_task]: the work-unit is invoked and [run_task] returns
    [None]. *)
Lemma run_task_error_cex :
  let '(_, r, invoked) :=
    run_task sample_isoformat 10 11 (sched_one task_raising) "t1" in
  r = Ok None /\ invoked = true.
Proof. split; reflexivity. Qed.

(** C2 (amended): an exception of the work-unit is caught inside
    [Task.run] on every path: neither [run_task] nor a firing of the
    background loop propagates it; [run_task] returns [None]. *)
Theorem work_unit_error_caught iso now_check now_fire (s : Sched)
    (tid : string) (t : Task) (msg : string) :
  find_task tid (tasks s) = Some t ->
  function t = Raises msg ->
  (let '(_, r, _) := run_task iso now_check now_fire s tid in r = Ok None) /\
  (let '(_, r, _) := loop_fire now_check now_fire s tid in r = Ok tt).
Proof.
  intros Hf Hfn. unfold run_task, loop_fire. rewrite Hf. unfold Task_run.
  rewrite Hfn.
  destruct (enabled t); simpl; [|split; reflexivity].
  destruct (reached_max_runs t); simpl; [split; reflexivity|].
  destruct (past_end_time now_check t) as [[|]|e]; simpl; split; reflexivity.
Qed.

Lemma work_unit_error_caught_witness :
  find_task "t1" (tasks (sched_one task_raising)) = Some task_raising /\
  function task_raising = Raises "boom" /\
  (let '(_, r, _) :=
     run_task sample_isoformat 10 11 (sched_one task_raising) "t1" in
   r = Ok None) /\
  (let '(_, r, _) := loop_fire 10 11 (sched_one task_raising) "t1" in
   r = Ok tt).
Proof.
  refine (conj eq_refl (conj eq_refl _)).
  apply (work_unit_error_caught sample_isoformat 10 11
           (sched_one task_raising) "t1" task_raising "boom"); reflexivity.
Defined.

(** C4: [add_task] of a task whose id is already registered returns
    [False] and leaves the whole scheduler state unchanged, so the existing
    task and the number of registered tasks are unchanged. *)
Theorem add_task_duplicate iso cj cn now (s : Sched) (t : Task) :
  mem (task_id t) (tasks s) = true ->
  add_task iso cj cn now s t = Done (s, false) /\
  (forall s' b, add_task iso cj cn now s t = Done (s', b) ->
   b = false /\
   find_task (task_id t) (tasks s') = find_task (task_id t) (tasks s) /\
   List.length (get_tasks s') = List.length (get_tasks s)).
Proof.
  intros Hm. unfold add_task. rewrite Hm. split; [reflexivity|].
  intros s' b H. injection H as <- <-. repeat split.
Qed.

(** The scenario: two tasks with id ["t1"]; the second [add_task] returns
    [False] and [get_tasks] still has length 1. *)
Lemma add_task_duplicate_witness :
  exists s1,
  add_task sample_isoformat lib_raises cal_next_day 0 empty_sched task_max1
    = Done (s1, true) /\
  mem (task_id task_dup) (tasks s1) = true /\
  (add_task sample_isoformat lib_raises cal_next_day 5 s1 task_dup = Done (s1, false) /\
   (forall s' b,
      add_task sample_isoformat lib_raises cal_next_day 5 s1 task_dup = Done (s', b) ->
      b = false /\
      find_task (task_id task_dup) (tasks s') = find_task (task_id task_dup) (tasks s1) /\
      List.length (get_tasks s') = List.length (get_tasks s1))) /\
  List.length (get_tasks s1) = 1%nat.
Proof.
  eexists. split; [reflexivity|].
  refine (conj eq_refl (conj _ eq_refl)).
  apply add_task_duplicate. reflexivity.
Defined.

(** C3 (counterexample): disabling a scheduled task keeps its [next_run],
    so the task ends up disabled with [next_run] present. *)
Lemma disable_task_keeps_next_run_cex :
  option_map (fun t => (enabled t, next_run t))
    (find_task "t1"
       (tasks (fst (disable_task sample_isoformat (sched_one task_scheduled) "t1"))))
  = Some (false, Some (naive 100)).
Proof. reflexivity. Qed.

(** C3 (amended): [disable_task] of a registered task returns [True], sets
    [enabled=False], cancels its job (dropped from the library's job list,
    handle reset), and leaves [run_count], [last_run] and [next_run]
    unchanged. *)
Theorem disable_task_effect iso (s : Sched) (tid : string) (t : Task) :
  find_task tid (tasks s) = Some t ->
  snd (disable_task iso s tid) = true /\
  exists t',
    find_task tid (tasks (fst (disable_task iso s tid))) = Some t' /\
    enabled t' = false /\ job t' = None /\
    (forall j, job t = Some j -> ~ In j (jobs (fst (disable_task iso s tid)))) /\
    run_count t' = run_count t /\ last_run t' = last_run t /\
    next_run t' = next_run t.
Proof.
  intros Hf. unfold disable_task. rewrite Hf.
  change (job (set_enabled false t)) with (job t).
  destruct (job t) as [j|] eqn:Ej; simpl; (split; [reflexivity|]).
  - eexists. split; [apply find_dict_set_same|].
    repeat split; try reflexivity.
    intros j' Hj'. injection Hj' as <-. apply cancel_job_removes.
  - eexists. split; [apply find_dict_set_same|].
    repeat split; try reflexivity.
    + simpl. exact Ej.
    + intros j' Hj'. discriminate.
Qed.

Lemma disable_task_effect_witness :
  find_task "t1" (tasks (sched_one task_scheduled)) = Some task_scheduled /\
  (snd (disable_task sample_isoformat (sched_one task_scheduled) "t1") = true /\
  exists t',
    find_task "t1"
      (tasks (fst (disable_task sample_isoformat (sched_one task_scheduled) "t1")))
      = Some t' /\
    enabled t' = false /\ job t' = None /\
    (forall j, job task_scheduled = Some j ->
       ~ In j (jobs (fst (disable_task sample_isoformat (sched_one task_scheduled) "t1")))) /\
    run_count t' = run_count task_scheduled /\
    last_run t' = last_run task_scheduled /\
    next_run t' = next_run task_scheduled).
Proof.
  refine (conj eq_refl _).
  apply (disable_task_effect sample_isoformat (sched_one task_scheduled) "t1"
           task_scheduled); reflexivity.
Defined.

(** C5 (counterexample): a cron task constraining both day-of-month and
    day-of-week is registered: [add_task] returns [True] and the task is in
    the registry, although [_schedule_task] failed on it. *)
Lemma add_task_cron_dom_dow_cex :
  (exists s' t',
     schedule_task lib_raises cal_next_day 0 empty_sched task_cron_dom_dow
       = Done (s', t', false)) /\
  (exists s',
     add_task sample_isoformat lib_raises cal_next_day 0 empty_sched
       task_cron_dom_dow = Done (s', true) /\
     mem "c1" (tasks s') = true).
Proof.
  split; [do 2 eexists; reflexivity|].
  eexists. split; reflexivity.
Qed.

(** C5 (amended): whatever the schedule (any cron expression) and whatever
    the scheduling library does, [add_task] of a task with a fresh id
    returns [True] and registers the task whenever it returns: the result
    of [_schedule_task] is ignored.  It does return unless the task is an
    enabled interval task with [interval = 0]. *)
Theorem add_task_fresh_registers iso cj cn now (s : Sched) (t : Task) :
  mem (task_id t) (tasks s) = false ->
  (forall s' b, add_task iso cj cn now s t = Done (s', b) ->
   b = true /\ find_task (task_id t) (tasks s') <> None) /\
  (enabled t = false \/ schedule_type t <> "interval"%string \/ interval t <> 0 ->
   exists s', add_task iso cj cn now s t = Done (s', true)).
Proof.
  intros Hm. unfold add_task. rewrite Hm. split.
  - intros s' b.
    destruct (schedule_task cj cn now _ t) as [[[s2 t2] b2]|]; [|discriminate].
    intros H. injection H as <- <-. simpl. split; [reflexivity|].
    rewrite find_dict_set_same. discriminate.
  - intros Hnl.
    destruct (schedule_task_returns cj cn now
                (set_tasks (dict_set (task_id t) t (tasks s)) s) t Hnl)
      as [[[s2 t2] b2] E].
    rewrite E. eexists. reflexivity.
Qed.

Lemma add_task_fresh_registers_witness :
  mem (task_id task_cron_dom_dow) (tasks empty_sched) = false /\
  ((forall s' b,
      add_task sample_isoformat lib_raises cal_next_day 0 empty_sched
        task_cron_dom_dow = Done (s', b) ->
      b = true /\ find_task (task_id task_cron_dom_dow) (tasks s') <> None) /\
   (enabled task_cron_dom_dow = false \/
    schedule_type task_cron_dom_dow <> "interval"%string \/
    interval task_cron_dom_dow <> 0 ->
    exists s', add_task sample_isoformat lib_raises cal_next_day 0 empty_sched
                 task_cron_dom_dow = Done (s', true))).
Proof.
  refine (conj eq_refl _).
  apply add_task_fresh_registers. reflexivity.
Defined.

(** C6 (counterexample): right after the only allowed run of a task with
    [max_runs=1], [run_count] has reached [max_runs] but the task is still
    enabled. *)
Lemma max_runs_reached_still_enabled_cex :
  let '(t', _, _) := Task_run 10 11 task_max1 in
  max_runs t' = Some 1 /\ run_count t' = 1 /\ enabled t' = true.
Proof. repeat split. Qed.

(** C6 (amended): [Task.run] never takes [run_count] above [max_runs]
    (starting from [run_count <= max_runs]); once [run_count >= max_runs]
    it does not invoke the work-unit, leaves [run_count] as it is, and the
    task comes out disabled; a call that invokes the work-unit of a task
    that is not ["once"] leaves it enabled, so the disabling is lazy.  The
    invariant [run_count <= max_runs] over the registry is kept by
    [add_task] (of a task satisfying it), [remove_task], [disable_task],
    [enable_task], [run_task], a firing of the background loop and
    [start]. *)
Theorem Task_run_max_runs iso cj cn (now_check now_fire now : Z) (t : Task)
    (m : Z) :
  max_runs t = Some m ->
  (let '(t', _, invoked) := Task_run now_check now_fire t in
   (run_count t <= m -> run_count t' <= m) /\
   (m <= run_count t ->
    invoked = false /\ enabled t' = false /\ run_count t' = run_count t) /\
   (invoked = true -> schedule_type t <> "once"%string -> enabled t' = true)) /\
  (forall (s : Sched) (tid : string) (t0 : Task),
   registry_within (tasks s) ->
   (within_max_runs t0 -> forall s' b,
      add_task iso cj cn now s t0 = Done (s', b) -> registry_within (tasks s')) /\
   registry_within (tasks (fst (remove_task iso s tid))) /\
   registry_within (tasks (fst (disable_task iso s tid))) /\
   (forall s' b, enable_task iso cj cn now s tid = Done (s', b) ->
      registry_within (tasks s')) /\
   registry_within (tasks (fst (fst (run_task iso now_check now_fire s tid)))) /\
   registry_within (tasks (fst (fst (loop_fire now_check now_fire s tid)))) /\
   (forall r s', start cj cn now false s = Done (r, s') ->
      registry_within (tasks s'))).
Proof.
  intros Hm. split.
  - unfold Task_run, reached_max_runs. rewrite Hm.
    destruct (enabled t) eqn:Hen; simpl.
    + destruct (Z.leb_spec m (run_count t)) as [Hle|Hlt]; simpl.
      * split; [lia|]. split; [intros _; repeat split|discriminate].
      * destruct (past_end_time now_check t) as [[|]|e]; simpl.
        -- split; [lia|]. split; [intros _; repeat split|discriminate].
        -- destruct (function t); simpl.
           ++ destruct (String.eqb_spec (schedule_type t) "interval");
                [destruct (add_seconds now_fire (interval t))|];
                [| |destruct (String.eqb (schedule_type t) "cron");
                    [|destruct (String.eqb_spec (schedule_type t) "once")]];
                simpl; (split; [lia|]); (split; [intros; lia|]);
                intros _ Hno; first [exact Hen | contradiction].
           ++ split; [lia|]. split; [intros; lia|]. intros _ _. exact Hen.
        -- split; [lia|]. split; [intros; lia|]. discriminate.
    + split; [lia|]. split; [intros _; repeat split; exact Hen|discriminate].
  - intros s tid t0 Hs.
    unfold registry_within in *.
    assert (Hfind : forall t1, find_task tid (tasks s) = Some t1 ->
                               within_max_runs t1).
    { intros t1 Hf. apply find_some_in in Hf.
      rewrite Forall_forall in Hs. exact (Hs _ Hf). }
    split; [|split; [|split; [|split; [|split; [|split]]]]].
    + (* add_task *)
      intros Ht0 s' b. unfold add_task.
      destruct (mem (task_id t0) (tasks s)).
      { intros H. injection H as <- _. exact Hs. }
      destruct (schedule_task cj cn now _ t0) as [[[s2 t2] b2]|] eqn:E;
        [|discriminate].
      intros H. injection H as <- _.
      pose proof (schedule_task_done _ _ _ _ _ _ _ _ E) as (Ht & _ & _ & _ & Hw & _).
      simpl. apply (dict_set_forall (fun kt => within_max_runs (snd kt))).
      * rewrite Ht. simpl.
        apply (dict_set_forall (fun kt => within_max_runs (snd kt))); assumption.
      * exact (Hw Ht0).
    + (* remove_task *)
      unfold remove_task. destruct (find_task tid (tasks s)) as [t1|]; [|exact Hs].
      simpl. apply (dict_del_forall (fun kt => within_max_runs (snd kt))).
      destruct (job t1); exact Hs.
    + (* disable_task *)
      unfold disable_task. destruct (find_task tid (tasks s)) as [t1|] eqn:Ef;
        [|exact Hs].
      pose proof (Hfind t1 eq_refl) as Hw.
      simpl. destruct (job t1); simpl;
        apply (dict_set_forall (fun kt => within_max_runs (snd kt))); assumption.
    + (* enable_task *)
      intros s' b. unfold enable_task.
      destruct (find_task tid (tasks s)) as [t1|] eqn:Ef.
      2: { intros H. injection H as <- _. exact Hs. }
      pose proof (Hfind t1 eq_refl) as Hw.
      destruct (schedule_task cj cn now s (set_enabled true t1))
        as [[[s2 t2] b2]|] eqn:E; [|discriminate].
      intros H. injection H as <- _.
      pose proof (schedule_task_done _ _ _ _ _ _ _ _ E) as (Ht & _ & _ & _ & Hw2 & _).
      simpl. apply (dict_set_forall (fun kt => within_max_runs (snd kt))).
      * rewrite Ht. exact Hs.
      * apply Hw2. exact Hw.
    + (* run_task *)
      unfold run_task. destruct (find_task tid (tasks s)) as [t1|] eqn:Ef;
        [|exact Hs].
      pose proof (Hfind t1 eq_refl) as Hw.
      pose proof (Task_run_facts now_check now_fire t1) as Hr.
      destruct (Task_run now_check now_fire t1) as [[t2 r] inv].
      destruct Hr as (_ & _ & Hw2 & _).
      destruct r; simpl;
        apply (dict_set_forall (fun kt => within_max_runs (snd kt)));
        auto.
    + (* loop_fire *)
      unfold loop_fire. destruct (find_task tid (tasks s)) as [t1|] eqn:Ef;
        [|exact Hs].
      pose proof (Hfind t1 eq_refl) as Hw.
      pose proof (Task_run_facts now_check now_fire t1) as Hr.
      destruct (Task_run now_check now_fire t1) as [[t2 r] inv].
      destruct Hr as (_ & _ & Hw2 & _).
      destruct r; simpl;
        apply (dict_set_forall (fun kt => within_max_runs (snd kt)));
        auto.
    + (* start *)
      intros r s'. unfold start, schedule_all.
      destruct (schedule_each cj cn now (tasks s) s) as [s2|] eqn:E;
        [|discriminate].
      intros H. injection H as _ <-.
      refine (schedule_each_forall cj cn now within_max_runs _ (tasks s) s s2
                Hs Hs E).
      intros sa ta sb tb bb Eab.
      exact (proj1 (proj2 (proj2 (proj2 (proj2
               (schedule_task_done _ _ _ _ _ _ _ _ Eab)))))).
Qed.

Lemma Task_run_max_runs_witness :
  max_runs task_max1 = Some 1 /\
  ((let '(t', _, invoked) := Task_run 10 11 task_max1 in
    (run_count task_max1 <= 1 -> run_count t' <= 1) /\
    (1 <= run_count task_max1 ->
     invoked = false /\ enabled t' = false /\ run_count t' = run_count task_max1) /\
    (invoked = true -> schedule_type task_max1 <> "once"%string ->
     enabled t' = true)) /\
   (forall (s : Sched) (tid : string) (t0 : Task),
    registry_within (tasks s) ->
    (within_max_runs t0 -> forall s' b,
       add_task sample_isoformat lib_raises cal_next_day 5 s t0 = Done (s', b) ->
       registry_within (tasks s')) /\
    registry_within (tasks (fst (remove_task sample_isoformat s tid))) /\
    registry_within (tasks (fst (disable_task sample_isoformat s tid))) /\
    (forall s' b, enable_task sample_isoformat lib_raises cal_next_day 5 s tid
                    = Done (s', b) ->
       registry_within (tasks s')) /\
    registry_within (tasks (fst (fst (run_task sample_isoformat 10 11 s tid)))) /\
    registry_within (tasks (fst (fst (loop_fire 10 11 s tid)))) /\
    (forall r s', start lib_raises cal_next_day 5 false s = Done (r, s') ->
       registry_within (tasks s')))).
Proof.
  refine (conj eq_refl _).
  apply (Task_run_max_runs sample_isoformat lib_raises cal_next_day 10 11 5
           task_max1 1). reflexivity.
Defined.

(** C7 (counterexample): with [interval=0] the [next_run] computed after a
    firing equals the anchor [last_run]; it is not strictly later. *)
Lemma interval_zero_not_after_anchor_cex :
  let '(t', _, _) := Task_run 10 11 task_interval0 in
  last_run t' = Some (naive 11) /\ next_run t' = Some (naive 11).
Proof. split; reflexivity. Qed.

(** C7 (amended): for an enabled interval task, a firing whose work-unit
    returns sets [last_run] to the fire time and adds one to [run_count];
    [next_run] becomes [last_run + interval] when that is a datetime, and
    otherwise the [OverflowError] is caught: [next_run] is kept and the
    run returns [None].  [_schedule_task] (registration, [enable_task],
    [start]) fires nothing: with [interval > 0] and [now + interval] a
    datetime it registers a job and sets [next_run = now + interval]; with
    [interval = 0] it never returns; with [interval < 0] or
    [now + interval] out of range it returns [False] with no job and
    [next_run] unchanged.  Strictly after the anchor exactly when
    [interval > 0]. *)
Theorem interval_next_run cj cn (now : Z) (s : Sched) (t : Task) :
  enabled t = true ->
  schedule_type t = "interval"%string ->
  0 <= now <= max_secs ->
  (forall now_check now_fire v,
   reached_max_runs t = false ->
   past_end_time now_check t = Ok false ->
   function t = Returns v ->
   0 <= now_fire <= max_secs ->
   let '(t', r, _) := Task_run now_check now_fire t in
   last_run t' = Some (naive now_fire) /\
   run_count t' = run_count t + 1 /\
   (0 <= now_fire + interval t <= max_secs ->
    next_run t' = Some (naive (now_fire + interval t)) /\ r = Ok (Some v)) /\
   (now_fire + interval t < 0 \/ max_secs < now_fire + interval t ->
    next_run t' = next_run t /\ r = Ok None) /\
   (now_fire < now_fire + interval t <-> 0 < interval t)) /\
  (0 < interval t -> now + interval t <= max_secs ->
   exists s' t', schedule_task cj cn now s t = Done (s', t', true) /\
     next_run t' = Some (naive (now + interval t)) /\
     run_count t' = run_count t /\ last_run t' = last_run t /\
     exists j, job t' = Some j /\ In j (jobs s')) /\
  (interval t = 0 -> schedule_task cj cn now s t = Loops) /\
  (interval t < 0 \/ max_secs < now + interval t ->
   exists s' t', schedule_task cj cn now s t = Done (s', t', false) /\
     next_run t' = next_run t /\ job t' = None) /\
  (now < now + interval t <-> 0 < interval t).
Proof.
  intros Hen Hst Hnow. split; [|split; [|split; [|split]]].
  - intros now_check now_fire v Hmax Hend Hf Hfire.
    unfold Task_run. rewrite Hen, Hmax, Hend, Hf. cbn -[add_seconds].
    rewrite Hst. cbn -[add_seconds].
    destruct (add_seconds now_fire (interval t)) as [d|] eqn:Ea; cbn.
    + pose proof (add_seconds_some _ _ _ Ea) as [-> Hd].
      split; [reflexivity|]. split; [reflexivity|].
      split; [intros _; split; reflexivity|]. split; [intros; lia|lia].
    + split; [reflexivity|]. split; [reflexivity|].
      split; [intros Hin; rewrite add_seconds_in in Ea by lia; discriminate|].
      split; [intros _; split; reflexivity|lia].
  - intros Hpos Hmx. unfold schedule_task.
    destruct (job t) as [j0|]; cbn -[every_seconds_do add_seconds];
      rewrite Hen, Hst; cbn -[every_seconds_do add_seconds];
      rewrite every_seconds_do_pos by lia; rewrite add_seconds_in by lia;
      do 2 eexists; (split; [reflexivity|]); cbn;
      (split; [reflexivity|]); (split; [reflexivity|]); (split; [reflexivity|]);
      eexists; (split; [reflexivity|]); apply in_or_app; right; left; reflexivity.
  - intros H0. unfold schedule_task.
    destruct (job t) as [j0|]; cbn -[every_seconds_do add_seconds];
      rewrite Hen, Hst; cbn -[every_seconds_do add_seconds];
      rewrite H0, every_seconds_do_zero by lia; reflexivity.
  - intros Hout. unfold schedule_task.
    destruct (job t) as [j0|] eqn:Ej; cbn -[every_seconds_do add_seconds];
      rewrite Hen, Hst; cbn -[every_seconds_do add_seconds];
      rewrite every_seconds_do_raises by lia;
      do 2 eexists; (split; [reflexivity|]); cbn; split;
      first [reflexivity | exact Ej].
  - lia.
Qed.

Lemma interval_next_run_witness :
  enabled task_max1 = true /\
  schedule_type task_max1 = "interval"%string /\
  0 <= 5 <= max_secs /\
  ((forall now_check now_fire v,
    reached_max_runs task_max1 = false ->
    past_end_time now_check task_max1 = Ok false ->
    function task_max1 = Returns v ->
    0 <= now_fire <= max_secs ->
    let '(t', r, _) := Task_run now_check now_fire task_max1 in
    last_run t' = Some (naive now_fire) /\
    run_count t' = run_count task_max1 + 1 /\
    (0 <= now_fire + interval task_max1 <= max_secs ->
     next_run t' = Some (naive (now_fire + interval task_max1)) /\
     r = Ok (Some v)) /\
    (now_fire + interval task_max1 < 0 \/
     max_secs < now_fire + interval task_max1 ->
     next_run t' = next_run task_max1 /\ r = Ok None) /\
    (now_fire < now_fire + interval task_max1 <-> 0 < interval task_max1)) /\
   (0 < interval task_max1 -> 5 + interval task_max1 <= max_secs ->
    exists s' t',
      schedule_task lib_raises cal_next_day 5 empty_sched task_max1
        = Done (s', t', true) /\
      next_run t' = Some (naive (5 + interval task_max1)) /\
      run_count t' = run_count task_max1 /\
      last_run t' = last_run task_max1 /\
      exists j, job t' = Some j /\ In j (jobs s')) /\
   (interval task_max1 = 0 ->
    schedule_task lib_raises cal_next_day 5 empty_sched task_max1 = Loops) /\
   (interval task_max1 < 0 \/ max_secs < 5 + interval task_max1 ->
    exists s' t',
      schedule_task lib_raises cal_next_day 5 empty_sched task_max1
        = Done (s', t', false) /\
      next_run t' = next_run task_max1 /\ job t' = None) /\
   (5 < 5 + interval task_max1 <-> 0 < interval task_max1)).
Proof.
  refine (conj eq_refl (conj eq_refl (conj _ _))).
  - unfold max_secs. lia.
  - apply (interval_next_run lib_raises cal_next_day 5 empty_sched task_max1);
      [reflexivity | reflexivity | unfold max_secs; lia].
Defined.

(** * Persistence *)

Section Roundtrip.

(** The two properties of Python's ISO codec the round trip relies on. *)
Variable isoformat : datetime -> string.
Variable fromisoformat : string -> option datetime.
Hypothesis iso_nonempty : forall d, isoformat d <> ""%string.
Hypothesis iso_roundtrip : forall d, fromisoformat (isoformat d) = Some d.

Lemma parse_iso_opt (d : option datetime) :
  parse_opt fromisoformat (iso_opt isoformat d) = Ok d.
Proof.
  destruct d as [d|]; simpl; [|reflexivity].
  destruct (String.eqb_spec (isoformat d) ""%string) as [E|_].
  - exfalso. exact (iso_nonempty d E).
  - rewrite iso_roundtrip. reflexivity.
Qed.

(** C8: [Task.from_dict(task.to_dict(), f)] succeeds, for any freshly
    attached work-unit [f], and reproduces [run_count], [last_run],
    [next_run] and [enabled]; the record does not depend on the
    work-unit. *)
Theorem to_dict_from_dict_roundtrip (t : Task) (f : fn_result) :
  (exists t',
     from_dict fromisoformat (to_dict isoformat t) f = Ok t' /\
     run_count t' = run_count t /\ last_run t' = last_run t /\
     next_run t' = next_run t /\ enabled t' = enabled t /\
     function t' = f) /\
  (forall g, to_dict isoformat (set_function g t) = to_dict isoformat t).
Proof.
  split; [|intros g; reflexivity].
  unfold from_dict, to_dict. simpl.
  rewrite !parse_iso_opt.
  eexists. split; [reflexivity|]. repeat split.
Qed.

End Roundtrip.

Lemma to_dict_from_dict_roundtrip_witness :
  (forall d, sample_isoformat d <> ""%string) /\
  (forall d, sample_fromisoformat (sample_isoformat d) = Some d) /\
  ((exists t',
      from_dict sample_fromisoformat (to_dict sample_isoformat task_scheduled)
        (Returns 9) = Ok t' /\
      run_count t' = run_count task_scheduled /\
      last_run t' = last_run task_scheduled /\
      next_run t' = next_run task_scheduled /\
      enabled t' = enabled task_scheduled /\ function t' = Returns 9) /\
   (forall g, to_dict sample_isoformat (set_function g task_scheduled)
                = to_dict sample_isoformat task_scheduled)).
Proof.
  refine (conj sample_iso_nonempty (conj sample_iso_roundtrip _)).
  apply (to_dict_from_dict_roundtrip sample_isoformat sample_fromisoformat
           sample_iso_nonempty sample_iso_roundtrip task_scheduled (Returns 9)).
Defined.




(** * Further properties of the scheduler *)

(** ** Helper lemmas *)

Lemma Task_run_disabled (nc nf : Z) (t : Task) :
  enabled t = false -> Task_run nc nf t = (t, Ok None, false).
Proof. intros H. unfold Task_run. rewrite H. reflexivity. Qed.

Lemma Task_run_seq_disabled (times : list (Z * Z)) (t : Task) :
  enabled t = false -> Forall (fun b => b = false) (snd (Task_run_seq times t)).
Proof.
  revert t. induction times as [|[nc nf] ts IH]; intros t H; cbn [Task_run_seq].
  - constructor.
  - rewrite (Task_run_disabled nc nf t H).
    specialize (IH t H). destruct (Task_run_seq ts t) as [t2 invs].
    simpl in *. constructor; [reflexivity|exact IH].
Qed.

(** A firing of a one-shot task within its limits whose work-unit
    returns. *)
Lemma Task_run_once (nc nf : Z) (t : Task) (v : Z) :
  enabled t = true -> reached_max_runs t = false ->
  past_end_time nc t = Ok false -> function t = Returns v ->
  schedule_type t = "once"%string ->
  Task_run nc nf t =
    (set_enabled false (set_next_run None (set_last_run (Some (naive nf))
       (set_run_count (run_count t + 1) t))), Ok (Some v), true).
Proof.
  intros Hen Hmax Hend Hf Hst. unfold Task_run.
  rewrite Hen, Hmax, Hend, Hf. cbn -[add_seconds]. rewrite Hst. reflexivity.
Qed.

(** [_schedule_task] of an enabled interval task with [interval = 0] never
    returns. *)
Lemma schedule_task_hangs cj cn (now : Z) (s : Sched) (t : Task) :
  enabled t = true -> schedule_type t = "interval"%string -> interval t = 0 ->
  0 <= now <= max_secs ->
  schedule_task cj cn now s t = Loops.
Proof.
  intros Hen Hst Hi Hnow. unfold schedule_task.
  destruct (job t) as [j0|]; cbn -[every_seconds_do add_seconds];
    rewrite Hen, Hst; cbn -[every_seconds_do add_seconds];
    rewrite Hi, every_seconds_do_zero by exact Hnow; reflexivity.
Qed.

(** [_schedule_task] of an enabled interval task with [interval > 0]
    anchors [next_run] at [now + interval] when that is a datetime. *)
Lemma schedule_task_interval_anchor cj cn (now : Z) (s s' : Sched) (t t' : Task)
    (ok : bool) :
  enabled t = true -> schedule_type t = "interval"%string -> 0 < interval t ->
  0 <= now -> now + interval t <= max_secs ->
  schedule_task cj cn now s t = Done (s', t', ok) ->
  ok = true /\ enabled t' = true /\
  next_run t' = Some (naive (now + interval t)) /\
  exists j, job t' = Some j /\ In j (jobs s').
Proof.
  intros Hen Hst Hpos H0 Hmx. unfold schedule_task.
  destruct (job t) as [j0|]; cbn -[every_seconds_do add_seconds];
    rewrite Hen, Hst; cbn -[every_seconds_do add_seconds];
    rewrite every_seconds_do_pos by lia; rewrite add_seconds_in by lia;
    intros H; injection H as <- <- <-; cbn;
    (split; [reflexivity|]); (split; [assumption|]); (split; [reflexivity|]);
    eexists; (split; [reflexivity|]); apply in_or_app; right; left; reflexivity.
Qed.

(** [_schedule_task] of a disabled task only drops its job handle. *)
Lemma schedule_task_disabled_eq cj cn (now : Z) (s s' : Sched) (t t' : Task)
    (ok : bool) :
  enabled t = false -> schedule_task cj cn now s t = Done (s', t', ok) ->
  t' = set_job None t.
Proof.
  intros Hen. unfold schedule_task.
  destruct (job t) eqn:Ej; cbn -[every_seconds_do add_seconds]; rewrite Hen;
    cbn; intros H; injection H as _ <- _; [reflexivity|].
  destruct t; cbn in *; subst; reflexivity.
Qed.

(** ** [Task.run] *)




(** A one-shot task whose work-unit returns is run at most once: the
    firing that invokes it leaves it disabled, and no sequence of later
    calls of [Task.run] invokes the work-unit again. *)
Theorem once_fires_at_most_once (now_check now_fire : Z) (t t1 : Task)
    (r : exc (option Z)) (v : Z) :
  schedule_type t = "once"%string ->
  function t = Returns v ->
  Task_run now_check now_fire t = (t1, r, true) ->
  enabled t1 = false /\
  forall times, Forall (fun b => b = false) (snd (Task_run_seq times t1)).
Proof.
  intros Hst Hf H.
  assert (Hd : enabled t1 = false).
  { destruct (enabled t) eqn:Hen.
    2:{ rewrite (Task_run_disabled _ _ _ Hen) in H. discriminate H. }
    destruct (reached_max_runs t) eqn:Hmax.
    { unfold Task_run in H. rewrite Hen, Hmax in H. discriminate H. }
    destruct (past_end_time now_check t) as [[|]|e] eqn:Hend.
    - unfold Task_run in H. rewrite Hen, Hmax, Hend in H. discriminate H.
    - rewrite (Task_run_once now_check now_fire t v Hen Hmax Hend Hf Hst) in H.
      injection H as <- _. reflexivity.
    - unfold Task_run in H. rewrite Hen, Hmax, Hend in H. discriminate H. }
  split; [exact Hd|]. intros times. apply Task_run_seq_disabled. exact Hd.
Qed.

Lemma once_fires_at_most_once_witness :
  schedule_type task_once = "once"%string /\ function task_once = Returns 3 /\
  Task_run 10 11 task_once
    = (fst (fst (Task_run 10 11 task_once)), snd (fst (Task_run 10 11 task_once)),
       true) /\
  (enabled (fst (fst (Task_run 10 11 task_once))) = false /\
   forall times, Forall (fun b => b = false)
     (snd (Task_run_seq times (fst (fst (Task_run 10 11 task_once)))))).
Proof.
  refine (conj eq_refl (conj eq_refl (conj eq_refl _))).
  apply (once_fires_at_most_once 10 11 task_once
           (fst (fst (Task_run 10 11 task_once)))
           (snd (fst (Task_run 10 11 task_once))) 3); reflexivity.
Defined.

(** ** [_schedule_task] *)

(** [_schedule_task] keeps the job handles consistent whenever it
    returns: the task's handle, when set, is a job registered in the
    library, and the handle it had before is cancelled (handles are handed
    out in increasing order). *)
Theorem schedule_task_job_registered cj cn (now : Z) (s : Sched) (t : Task) :
  (forall j, job t = Some j -> (j < next_job s)%nat) ->
  forall s' t' ok, schedule_task cj cn now s t = Done (s', t', ok) ->
  (forall j, job t' = Some j -> In j (jobs s')) /\
  (forall j, job t = Some j -> ~ In j (jobs s')).
Proof.
  intros Hlt s' t' ok E.
  pose proof (schedule_task_done _ _ _ _ _ _ _ _ E) as (_ & _ & H & _).
  destruct (job t) as [j0|] eqn:Ej;
    destruct H as [[H1 [H2 H3]]|[H1 [H2 H3]]]; rewrite H1; split;
    intros j Hj; try congruence.
  - injection Hj as <-. apply cancel_job_removes.
  - rewrite H2 in Hj. injection Hj as <-. apply in_or_app. right. left.
    reflexivity.
  - injection Hj as <-. intros Hin. apply in_app_or in Hin.
    destruct Hin as [Hin|[Hin|[]]].
    + exact (cancel_job_removes j0 s Hin).
    + specialize (Hlt j0 eq_refl). simpl in Hin. lia.
  - rewrite H2 in Hj. injection Hj as <-. apply in_or_app. right. left.
    reflexivity.
Qed.

Lemma schedule_task_job_registered_witness :
  (forall j, job task_scheduled = Some j ->
     (j < next_job (sched_one task_scheduled))%nat) /\
  (forall s' t' ok,
     schedule_task lib_raises cal_next_day 50 (sched_one task_scheduled)
       task_scheduled = Done (s', t', ok) ->
     (forall j, job t' = Some j -> In j (jobs s')) /\
     (forall j, job task_scheduled = Some j -> ~ In j (jobs s'))).
Proof.
  assert (H : forall j, job task_scheduled = Some j ->
                (j < next_job (sched_one task_scheduled))%nat).
  { intros j Hj. injection Hj as <-. simpl. lia. }
  exact (conj H (schedule_task_job_registered lib_raises cal_next_day 50
                   (sched_one task_scheduled) task_scheduled H)).
Defined.

(** [_schedule_task] on a disabled task returns [True] after cancelling
    its job and registering no new one; the task stays disabled with
    [next_run] unchanged. *)
Theorem schedule_task_disabled cj cn (now : Z) (s : Sched) (t : Task) :
  enabled t = false ->
  match schedule_task cj cn now s t with
  | Done (s', t', ok) =>
      ok = true /\ job t' = None /\ enabled t' = false /\
      next_run t' = next_run t /\ next_job s' = next_job s /\
      (forall j, In j (jobs s') -> In j (jobs s)) /\
      (forall j, job t = Some j -> ~ In j (jobs s'))
  | Loops => False
  end.
Proof.
  intros Hen. unfold schedule_task.
  destruct (job t) as [j0|] eqn:Ej; cbn -[every_seconds_do add_seconds];
    rewrite Hen; cbn; (repeat split; try assumption).
  all: intros j Hj;
    first [ exact Hj | discriminate
          | apply in_jobs_cancel in Hj; tauto
          | injection Hj as <-; apply cancel_job_removes ].
Qed.

Lemma schedule_task_disabled_witness :
  enabled (set_enabled false task_scheduled) = false /\
  match schedule_task lib_raises cal_next_day 50 (sched_one task_scheduled)
          (set_enabled false task_scheduled) with
  | Done (s', t', ok) =>
      ok = true /\ job t' = None /\ enabled t' = false /\
      next_run t' = next_run (set_enabled false task_scheduled) /\
      next_job s' = next_job (sched_one task_scheduled) /\
      (forall j, In j (jobs s') -> In j (jobs (sched_one task_scheduled))) /\
      (forall j, job (set_enabled false task_scheduled) = Some j ->
         ~ In j (jobs s'))
  | Loops => False
  end.
Proof.
  refine (conj eq_refl _).
  apply (schedule_task_disabled lib_raises cal_next_day 50
           (sched_one task_scheduled) (set_enabled false task_scheduled)).
  reflexivity.
Defined.

(** A cron expression (characters below 256) whose [str.split()] (on any
    whitespace: [\t \n \x0b \x0c \r], [\x1c]-[\x1f], space, [\x85] and
    [\xa0]) does not have exactly five fields
    makes [_schedule_task] return [False]: the previous job is cancelled,
    no job is registered, and [next_run] is unchanged. *)
Theorem schedule_task_cron_field_count cj cn (now : Z) (s : Sched) (t : Task)
    (c : string) :
  enabled t = true ->
  schedule_type t = "cron"%string ->
  cron t = Some c ->
  List.length (split_ws c) <> 5%nat ->
  match schedule_task cj cn now s t with
  | Done (s', t', ok) =>
      ok = false /\ job t' = None /\ next_run t' = next_run t /\
      next_job s' = next_job s /\ (forall j, In j (jobs s') -> In j (jobs s)) /\
      (forall j, job t = Some j -> ~ In j (jobs s'))
  | Loops => False
  end.
Proof.
  intros Hen Hst Hc Hlen.
  apply Nat.eqb_neq in Hlen.
  unfold schedule_task.
  destruct (job t) as [j0|] eqn:Ej; cbn -[every_seconds_do add_seconds split_ws];
    rewrite Hen, Hst; cbn -[every_seconds_do add_seconds split_ws];
    rewrite Hc; cbn -[split_ws]; rewrite Hlen; cbn;
    (repeat split; try assumption).
  all: intros j Hj;
    first [ exact Hj | discriminate
          | apply in_jobs_cancel in Hj; tauto
          | injection Hj as <-; apply cancel_job_removes ].
Qed.

Lemma schedule_task_cron_field_count_witness :
  enabled task_cron_short = true /\ schedule_type task_cron_short = "cron"%string /\
  cron task_cron_short = Some cron_four_fields /\
  List.length (split_ws cron_four_fields) <> 5%nat /\
  match schedule_task lib_builds cal_next_day 50 empty_sched task_cron_short with
  | Done (s', t', ok) =>
      ok = false /\ job t' = None /\ next_run t' = next_run task_cron_short /\
      next_job s' = next_job empty_sched /\
      (forall j, In j (jobs s') -> In j (jobs empty_sched)) /\
      (forall j, job task_cron_short = Some j -> ~ In j (jobs s'))
  | Loops => False
  end.
Proof.
  assert (Hlen : List.length (split_ws cron_four_fields) <> 5%nat).
  { intros H. vm_compute in H. discriminate H. }
  refine (conj eq_refl (conj eq_refl (conj eq_refl (conj Hlen _)))).
  exact (schedule_task_cron_field_count lib_builds cal_next_day 50 empty_sched
           task_cron_short cron_four_fields eq_refl eq_refl eq_refl Hlen).
Defined.



(** An enabled one-shot task with no [start_time], or a naive one not in
    the future, is run at once by [_schedule_task].  When the run invokes a
    work-unit that returns (max_runs not reached, end-time check [False]),
    the call returns [True]: [run_count] is increased by one,
    [last_run = now], and the task ends disabled with [next_run = None],
    its previous job cancelled and no new job. *)
Theorem schedule_task_once_now cj cn (now : Z) (s : Sched) (t : Task) (v : Z) :
  enabled t = true ->
  schedule_type t = "once"%string ->
  match start_time t with
  | Some st => dt_utcoffset st = None /\ dt_secs st <= now
  | None => True
  end ->
  reached_max_runs t = false ->
  past_end_time now t = Ok false ->
  function t = Returns v ->
  match schedule_task cj cn now s t with
  | Done (s', t', ok) =>
      ok = true /\ enabled t' = false /\ next_run t' = None /\ job t' = None /\
      run_count t' = run_count t + 1 /\ last_run t' = Some (naive now) /\
      next_job s' = next_job s /\
      (forall j, job t = Some j -> ~ In j (jobs s'))
  | Loops => False
  end.
Proof.
  intros Hen Hst Hs Hmax Hend Hf.
  unfold schedule_task, run_once_now.
  destruct (job t) as [j0|] eqn:Ej;
    cbn -[every_seconds_do add_seconds Z.ltb Task_run];
    rewrite Hen, Hst; cbn -[every_seconds_do add_seconds Z.ltb Task_run];
    destruct (start_time t) as [st|];
    try (destruct Hs as [Ho Hle]; rewrite Ho;
         replace (now <? dt_secs st) with false
           by (symmetry; apply Z.ltb_ge; exact Hle));
    cbn -[Task_run];
    rewrite (Task_run_once now now _ v)
      by first [exact Hen | exact Hmax | exact Hend | exact Hf | exact Hst];
    cbn; (repeat split; try assumption);
    intros j Hj; first [discriminate | injection Hj as <-; apply cancel_job_removes].
Qed.

Lemma schedule_task_once_now_witness :
  enabled task_once_past = true /\
  schedule_type task_once_past = "once"%string /\
  match start_time task_once_past with
  | Some st => dt_utcoffset st = None /\ dt_secs st <= 50
  | None => True
  end /\
  reached_max_runs task_once_past = false /\
  past_end_time 50 task_once_past = Ok false /\
  function task_once_past = Returns 3 /\
  match schedule_task lib_raises cal_next_day 50 empty_sched task_once_past with
  | Done (s', t', ok) =>
      ok = true /\ enabled t' = false /\ next_run t' = None /\ job t' = None /\
      run_count t' = run_count task_once_past + 1 /\
      last_run t' = Some (naive 50) /\
      next_job s' = next_job empty_sched /\
      (forall j, job task_once_past = Some j -> ~ In j (jobs s'))
  | Loops => False
  end.
Proof.
  assert (Hs : match start_time task_once_past with
               | Some st => dt_utcoffset st = None /\ dt_secs st <= 50
               | None => True
               end) by (cbn; split; [reflexivity|lia]).
  refine (conj eq_refl (conj eq_refl (conj Hs (conj eq_refl (conj eq_refl
            (conj eq_refl _)))))).
  exact (schedule_task_once_now lib_raises cal_next_day 50 empty_sched
           task_once_past 3 eq_refl eq_refl Hs eq_refl eq_refl eq_refl).
Defined.

(** ** Registry operations *)


Lemma disable_task_found iso (s : Sched) (tid : string) (t : Task) :
  find_task tid (tasks s) = Some t ->
  exists t1, find_task tid (tasks (fst (disable_task iso s tid))) = Some t1 /\
    same_static t t1 /\ run_count t1 = run_count t /\ last_run t1 = last_run t.
Proof.
  intros Hf. unfold disable_task. rewrite Hf.
  change (job (set_enabled false t)) with (job t).
  destruct (job t); cbn [fst save_tasks set_tasks tasks];
    eexists; (split; [apply find_dict_set_same|]); repeat split.
Qed.

(** [enable_task] of a registered interval task with [interval > 0]
    whose [now + interval] is a datetime. *)
Lemma enable_task_interval iso cj cn (now : Z) (s : Sched) (tid : string) (t : Task) :
  find_task tid (tasks s) = Some t ->
  schedule_type t = "interval"%string -> 0 < interval t ->
  0 <= now -> now + interval t <= max_secs ->
  exists s2, enable_task iso cj cn now s tid = Done (s2, true) /\
  exists t', find_task tid (tasks s2) = Some t' /\ enabled t' = true /\
    run_count t' = run_count t /\ last_run t' = last_run t /\
    next_run t' = Some (naive (now + interval t)) /\
    exists j, job t' = Some j /\ In j (jobs s2).
Proof.
  intros Hf Hst Hpos H0 Hmx. unfold enable_task. rewrite Hf.
  assert (Hne : enabled (set_enabled true t) = false \/
                schedule_type (set_enabled true t) <> "interval"%string \/
                interval (set_enabled true t) <> 0) by (right; right; cbn; lia).
  destruct (schedule_task_returns cj cn now s (set_enabled true t) Hne)
    as [[[s1 t1] b] E].
  rewrite E.
  destruct (schedule_task_interval_anchor cj cn now s s1 (set_enabled true t) t1 b
              eq_refl Hst Hpos H0 Hmx E) as (_ & He & Hn & j & Hj & Hin).
  pose proof (schedule_task_done _ _ _ _ _ _ _ _ E) as (_ & _ & _ & _ & _ & Hrl).
  assert (Hno : schedule_type (set_enabled true t) <> "once"%string)
    by (cbn; rewrite Hst; discriminate).
  destruct (Hrl Hno) as [Hr Hl].
  eexists. split; [reflexivity|].
  exists t1. cbn [save_tasks set_tasks tasks jobs].
  split; [apply find_dict_set_same|].
  split; [exact He|]. split; [exact Hr|]. split; [exact Hl|].
  split; [exact Hn|]. exists j. split; assumption.
Qed.

(** The loop of [start] keeps the registry keys. *)
Lemma schedule_each_keys cj cn (now : Z) (L : list (string * Task)) (a a' : Sched) :
  (forall k, In k (map fst L) -> In k (map fst (tasks a))) ->
  schedule_each cj cn now L a = Done a' ->
  map fst (tasks a') = map fst (tasks a).
Proof.
  revert a. induction L as [|[k0 t0] L IH]; intros a Hin H; simpl in H.
  - injection H as <-. reflexivity.
  - destruct (schedule_task cj cn now a t0) as [[[s' t'] b']|] eqn:E;
      [|discriminate].
    pose proof (schedule_task_done _ _ _ _ _ _ _ _ E) as (Ht & _).
    assert (Hk : map fst (tasks (set_tasks (dict_set k0 t' (tasks s')) s'))
                 = map fst (tasks a)).
    { cbn [set_tasks tasks]. rewrite Ht.
      assert (Hm : mem k0 (tasks a) = true)
        by (apply mem_in, Hin; simpl; tauto).
      rewrite mem_find in Hm.
      destruct (find_task k0 (tasks a)) as [t1|] eqn:Ef; [|discriminate].
      exact (map_fst_dict_set_found _ _ _ _ Ef). }
    refine (eq_trans (IH _ _ H) Hk).
    intros k Hk'. rewrite Hk. apply Hin. simpl. tauto.
Qed.

(** After the loop of [start], the entry of each visited key holds what
    [_schedule_task] made of the task found there; other keys are
    untouched. *)
Lemma schedule_each_spec cj cn (now : Z) (L : list (string * Task)) (a a' : Sched) :
  NoDup (map fst L) ->
  schedule_each cj cn now L a = Done a' ->
  (forall k, ~ In k (map fst L) -> find_task k (tasks a') = find_task k (tasks a)) /\
  (forall k t, In (k, t) L ->
     exists b b' t' ok, schedule_task cj cn now b t = Done (b', t', ok) /\
       find_task k (tasks a') = Some t').
Proof.
  revert a. induction L as [|[k0 t0] L IH]; intros a Hnd H; simpl in H.
  - injection H as <-. split; [reflexivity|]. intros k t [].
  - inversion Hnd as [|? ? Hnin Hnd']; subst.
    destruct (schedule_task cj cn now a t0) as [[[s' t'] b']|] eqn:E;
      [|discriminate].
    pose proof (schedule_task_done _ _ _ _ _ _ _ _ E) as (Ht & _).
    destruct (IH _ Hnd' H) as [IH1 IH2].
    split.
    + intros k Hk. rewrite IH1 by (intros Hi; apply Hk; simpl; tauto).
      cbn [set_tasks tasks].
      rewrite find_dict_set_other by (intros ->; apply Hk; simpl; tauto).
      rewrite Ht. reflexivity.
    + intros k t [Eq|Hin].
      * injection Eq as <- <-. exists a, s', t', b'. split; [exact E|].
        rewrite IH1 by exact Hnin. cbn [set_tasks tasks].
        apply find_dict_set_same.
      * exact (IH2 k t Hin).
Qed.

(** The loop of [start] never returns when it reaches an enabled interval
    task with [interval = 0]. *)
Lemma schedule_each_hangs cj cn (now : Z) (k : string) (t : Task) :
  0 <= now <= max_secs -> enabled t = true ->
  schedule_type t = "interval"%string -> interval t = 0 ->
  forall (L : list (string * Task)) (a : Sched), In (k, t) L ->
  schedule_each cj cn now L a = Loops.
Proof.
  intros Hnow Hen Hst Hi L. induction L as [|[k0 t0] L IH]; intros a Hin;
    simpl; [destruct Hin|].
  destruct Hin as [Eq|Hin].
  - injection Eq as -> ->.
    rewrite (schedule_task_hangs cj cn now a t Hen Hst Hi Hnow). reflexivity.
  - destruct (schedule_task cj cn now a t0) as [[[s' t'] b']|];
      [apply IH; exact Hin|reflexivity].
Qed.

(** [remove_task] of a registered id returns [True], drops exactly that
    entry (the registry shrinks by one), cancels the task's job, and
    [tasks.json] then holds the records of the remaining tasks. *)
Theorem remove_task_effect iso (s : Sched) (tid : string) (t : Task) :
  wf_registry (tasks s) ->
  find_task tid (tasks s) = Some t ->
  let '(s', ok) := remove_task iso s tid in
  ok = true /\ find_task tid (tasks s') = None /\
  (forall k, k <> tid -> find_task k (tasks s') = find_task k (tasks s)) /\
  List.length (get_tasks s') = (List.length (get_tasks s) - 1)%nat /\
  (forall j, job t = Some j -> ~ In j (jobs s')) /\
  store s' = Some (get_scheduled_tasks iso s').
Proof.
  intros [Hnd Hwf] Hf. unfold remove_task. rewrite Hf.
  assert (Ht : tasks (match job t with
                      | Some j => cancel_job j s | None => s end) = tasks s)
    by (destruct (job t); reflexivity).
  split; [reflexivity|].
  split; [cbn [save_tasks set_tasks tasks]; rewrite Ht;
          apply find_dict_del_same; exact Hnd|].
  split; [intros k Hk; cbn [save_tasks set_tasks tasks]; rewrite Ht;
          apply find_dict_del_other; exact Hk|].
  split.
  { unfold get_tasks. cbn [save_tasks set_tasks tasks]. rewrite Ht, !length_map.
    apply length_dict_del. rewrite mem_find, Hf. reflexivity. }
  split; [|apply store_save].
  intros j Hj. rewrite Hj. cbn [save_tasks set_tasks jobs].
  apply cancel_job_removes.
Qed.

Lemma remove_task_effect_witness :
  wf_registry (tasks (sched_one task_scheduled)) /\
  find_task "t1" (tasks (sched_one task_scheduled)) = Some task_scheduled /\
  (let '(s', ok) := remove_task sample_isoformat (sched_one task_scheduled) "t1" in
   ok = true /\ find_task "t1" (tasks s') = None /\
   (forall k, k <> "t1"%string ->
      find_task k (tasks s') = find_task k (tasks (sched_one task_scheduled))) /\
   List.length (get_tasks s')
     = (List.length (get_tasks (sched_one task_scheduled)) - 1)%nat /\
   (forall j, job task_scheduled = Some j -> ~ In j (jobs s')) /\
   store s' = Some (get_scheduled_tasks sample_isoformat s')).
Proof.
  assert (Hwf : wf_registry (tasks (sched_one task_scheduled))).
  { split; simpl; repeat constructor; simpl; tauto. }
  refine (conj Hwf (conj eq_refl _)).
  exact (remove_task_effect sample_isoformat (sched_one task_scheduled) "t1"
           task_scheduled Hwf eq_refl).
Defined.

(** Every operation addressed by id does nothing on an id that is not
    registered: [remove_task], [disable_task] and [enable_task] return
    [False], [run_task] returns [None] without running anything, a firing
    finds no task, and the scheduler state (registry, jobs, [tasks.json])
    is unchanged. *)
Theorem unknown_id_no_effect iso cj cn (now now_check now_fire : Z)
    (s : Sched) (tid : string) :
  find_task tid (tasks s) = None ->
  remove_task iso s tid = (s, false) /\
  disable_task iso s tid = (s, false) /\
  enable_task iso cj cn now s tid = Done (s, false) /\
  run_task iso now_check now_fire s tid = (s, Ok None, false) /\
  loop_fire now_check now_fire s tid = (s, Ok tt, false).
Proof.
  intros Hf. unfold remove_task, disable_task, enable_task, run_task, loop_fire.
  rewrite Hf. repeat split.
Qed.

Lemma unknown_id_no_effect_witness :
  find_task "nope" (tasks (sched_one task_scheduled)) = None /\
  remove_task sample_isoformat (sched_one task_scheduled) "nope"
    = (sched_one task_scheduled, false) /\
  disable_task sample_isoformat (sched_one task_scheduled) "nope"
    = (sched_one task_scheduled, false) /\
  enable_task sample_isoformat lib_raises cal_next_day 5
    (sched_one task_scheduled) "nope" = Done (sched_one task_scheduled, false) /\
  run_task sample_isoformat 5 6 (sched_one task_scheduled) "nope"
    = (sched_one task_scheduled, Ok None, false) /\
  loop_fire 5 6 (sched_one task_scheduled) "nope"
    = (sched_one task_scheduled, Ok tt, false).
Proof.
  refine (conj eq_refl _).
  apply (unknown_id_no_effect sample_isoformat lib_raises cal_next_day 5 5 6).
  reflexivity.
Defined.



(** Every registry operation keeps the registry well formed (keys unique,
    each key the [task_id] of the task stored under it): [add_task] and
    [enable_task] whenever they return, [remove_task], [disable_task],
    [run_task] and a firing of the background loop. *)
Theorem ops_keep_registry_wf iso cj cn (now now_check now_fire : Z)
    (s : Sched) (t : Task) (tid : string) :
  wf_registry (tasks s) ->
  (forall s' b, add_task iso cj cn now s t = Done (s', b) -> wf_registry (tasks s')) /\
  wf_registry (tasks (fst (remove_task iso s tid))) /\
  wf_registry (tasks (fst (disable_task iso s tid))) /\
  (forall s' b, enable_task iso cj cn now s tid = Done (s', b) ->
     wf_registry (tasks s')) /\
  wf_registry (tasks (fst (fst (run_task iso now_check now_fire s tid)))) /\
  wf_registry (tasks (fst (fst (loop_fire now_check now_fire s tid)))).
Proof.
  intros Hwf. refine (conj _ (conj _ (conj _ (conj _ (conj _ _))))).
  - intros s' b. unfold add_task. destruct (mem (task_id t) (tasks s)).
    { intros H. injection H as <- _. exact Hwf. }
    destruct (schedule_task cj cn now _ t) as [[[s2 t2] b2]|] eqn:E;
      [|discriminate].
    intros H. injection H as <- _.
    pose proof (schedule_task_done _ _ _ _ _ _ _ _ E) as (Ht & _ & _ & Hs & _).
    cbn [save_tasks set_tasks tasks].
    apply wf_dict_set; [|exact (proj1 Hs)].
    rewrite Ht. cbn [set_tasks tasks]. apply wf_dict_set; [exact Hwf|reflexivity].
  - unfold remove_task. destruct (find_task tid (tasks s)) as [t0|]; [|exact Hwf].
    cbn [fst save_tasks set_tasks tasks].
    destruct (job t0); apply wf_dict_del; exact Hwf.
  - unfold disable_task. destruct (find_task tid (tasks s)) as [t0|] eqn:E;
      [|exact Hwf].
    pose proof (wf_find_task_id _ _ _ Hwf E) as Hi.
    change (job (set_enabled false t0)) with (job t0).
    destruct (job t0); cbn [fst save_tasks set_tasks tasks];
      apply wf_dict_set; assumption.
  - intros s' b. unfold enable_task.
    destruct (find_task tid (tasks s)) as [t0|] eqn:E0.
    2:{ intros H. injection H as <- _. exact Hwf. }
    pose proof (wf_find_task_id _ _ _ Hwf E0) as Hi.
    destruct (schedule_task cj cn now s (set_enabled true t0))
      as [[[s1 t1] b1]|] eqn:E; [|discriminate].
    intros H. injection H as <- _.
    pose proof (schedule_task_done _ _ _ _ _ _ _ _ E) as (Ht & _ & _ & Hs & _).
    cbn [save_tasks set_tasks tasks]. rewrite Ht.
    apply wf_dict_set; [exact Hwf|]. rewrite (proj1 Hs). exact Hi.
  - unfold run_task. destruct (find_task tid (tasks s)) as [t0|] eqn:E0;
      [|exact Hwf].
    pose proof (wf_find_task_id _ _ _ Hwf E0) as Hi.
    pose proof (Task_run_facts now_check now_fire t0) as Hr.
    destruct (Task_run now_check now_fire t0) as [[t1 r] inv].
    destruct Hr as (Hs & _).
    destruct r; cbn [fst save_tasks set_tasks tasks];
      (apply wf_dict_set; [exact Hwf|]); rewrite (proj1 Hs); exact Hi.
  - unfold loop_fire. destruct (find_task tid (tasks s)) as [t0|] eqn:E0;
      [|exact Hwf].
    pose proof (wf_find_task_id _ _ _ Hwf E0) as Hi.
    pose proof (Task_run_facts now_check now_fire t0) as Hr.
    destruct (Task_run now_check now_fire t0) as [[t1 r] inv].
    destruct Hr as (Hs & _).
    destruct r; cbn [fst set_tasks tasks];
      (apply wf_dict_set; [exact Hwf|]); rewrite (proj1 Hs); exact Hi.
Qed.

Lemma ops_keep_registry_wf_witness :
  wf_registry (tasks (sched_one task_scheduled)) /\
  ((forall s' b, add_task sample_isoformat lib_raises cal_next_day 5
                   (sched_one task_scheduled) task_once = Done (s', b) ->
      wf_registry (tasks s')) /\
   wf_registry (tasks (fst (remove_task sample_isoformat (sched_one task_scheduled) "t1"))) /\
   wf_registry (tasks (fst (disable_task sample_isoformat (sched_one task_scheduled) "t1"))) /\
   (forall s' b, enable_task sample_isoformat lib_raises cal_next_day 5
                   (sched_one task_scheduled) "t1" = Done (s', b) ->
      wf_registry (tasks s')) /\
   wf_registry (tasks (fst (fst (run_task sample_isoformat 5 6
                                   (sched_one task_scheduled) "t1")))) /\
   wf_registry (tasks (fst (fst (loop_fire 5 6 (sched_one task_scheduled) "t1"))))).
Proof.
  assert (Hwf : wf_registry (tasks (sched_one task_scheduled))).
  { split; simpl; repeat constructor; simpl; tauto. }
  exact (conj Hwf (ops_keep_registry_wf sample_isoformat lib_raises cal_next_day
           5 5 6 (sched_one task_scheduled) task_once "t1" Hwf)).
Defined.

(** After [add_task] or [enable_task] returning [True], and after a
    successful [remove_task] or [disable_task], [tasks.json] holds exactly
    the records [get_scheduled_tasks] returns.  So does [run_task] on a
    registered id when [task.run()] returns; when [task.run()] raises
    (the end-time check on an offset-aware [end_time]), [_save_tasks] is
    skipped and [tasks.json] keeps its previous content.  A firing by the
    background schedule never writes [tasks.json]. *)
Theorem mutations_persist_registry iso cj cn (now now_check now_fire : Z)
    (s : Sched) (t : Task) (tid : string) :
  (forall s', add_task iso cj cn now s t = Done (s', true) ->
   store s' = Some (get_scheduled_tasks iso s')) /\
  (snd (remove_task iso s tid) = true ->
   store (fst (remove_task iso s tid))
     = Some (get_scheduled_tasks iso (fst (remove_task iso s tid)))) /\
  (snd (disable_task iso s tid) = true ->
   store (fst (disable_task iso s tid))
     = Some (get_scheduled_tasks iso (fst (disable_task iso s tid)))) /\
  (forall s', enable_task iso cj cn now s tid = Done (s', true) ->
   store s' = Some (get_scheduled_tasks iso s')) /\
  (forall t0, find_task tid (tasks s) = Some t0 ->
   let '(_, r, _) := Task_run now_check now_fire t0 in
   (forall v, r = Ok v ->
    store (fst (fst (run_task iso now_check now_fire s tid)))
      = Some (get_scheduled_tasks iso
                (fst (fst (run_task iso now_check now_fire s tid))))) /\
   (forall e, r = Exc e ->
    store (fst (fst (run_task iso now_check now_fire s tid))) = store s)) /\
  store (fst (fst (loop_fire now_check now_fire s tid))) = store s.
Proof.
  split; [|split; [|split; [|split; [|split]]]].
  - intros s'. unfold add_task. destruct (mem (task_id t) (tasks s)).
    { intros H. injection H as _ Hb. discriminate Hb. }
    destruct (schedule_task _ _ _ _ _) as [[[s2 t2] b2]|]; [|discriminate].
    intros H. injection H as <-. apply store_save.
  - unfold remove_task. destruct (find_task tid (tasks s)); [|discriminate].
    intros _. apply store_save.
  - unfold disable_task. destruct (find_task tid (tasks s)) as [t0|];
      [|discriminate].
    destruct (job (set_enabled false t0)); intros _; apply store_save.
  - intros s'. unfold enable_task. destruct (find_task tid (tasks s)).
    2:{ intros H. injection H as _ Hb. discriminate Hb. }
    destruct (schedule_task _ _ _ _ _) as [[[s2 t2] b2]|]; [|discriminate].
    intros H. injection H as <-. apply store_save.
  - intros t0 Hf. unfold run_task. rewrite Hf.
    destruct (Task_run now_check now_fire t0) as [[t1 r] inv].
    cbn [fst snd].
    destruct r as [a|e]; split; intros ? H; try discriminate H.
    + apply store_save.
    + reflexivity.
  - unfold loop_fire. destruct (find_task tid (tasks s)) as [t0|]; [|reflexivity].
    destruct (Task_run now_check now_fire t0) as [[t1 r] i].
    destruct r; reflexivity.
Qed.

(** [disable_task] is idempotent: disabling a task a second time changes
    nothing and returns the same result. *)
Theorem disable_task_idempotent iso (s : Sched) (tid : string) :
  disable_task iso (fst (disable_task iso s tid)) tid = disable_task iso s tid.
Proof.
  destruct (disable_task iso s tid) as [s' b] eqn:E. simpl fst.
  unfold disable_task in E.
  destruct (find_task tid (tasks s)) as [t|] eqn:Hf.
  2:{ injection E as <- <-. unfold disable_task. rewrite Hf. reflexivity. }
  set (T := match job t with
            | Some _ => set_job None (set_enabled false t)
            | None => set_enabled false t end) in *.
  set (S1 := match job t with Some j => cancel_job j s | None => s end) in *.
  assert (E' : (save_tasks iso (set_tasks (dict_set tid T (tasks S1)) S1), true)
               = (s', b)).
  { rewrite <- E. subst T S1. change (job (set_enabled false t)) with (job t).
    destruct (job t); reflexivity. }
  injection E' as <- <-.
  assert (Hj : job T = None)
    by (subst T; destruct (job t) eqn:Ej; [reflexivity|exact Ej]).
  assert (He : set_enabled false T = T)
    by (subst T; destruct (job t); reflexivity).
  unfold disable_task. cbn [save_tasks set_tasks tasks].
  rewrite find_dict_set_same, He, Hj. lazy beta iota.
  rewrite (dict_set_found _ _ _ _ (find_dict_set_same tid T (tasks S1))).
  rewrite (update_found _ _ _ (find_dict_set_same tid T (tasks S1))).
  f_equal; try (destruct S1; reflexivity).
Qed.

(** Disabling and then re-enabling a registered interval task with
    [interval > 0] (and [now + interval] a datetime) returns [True]: the
    task is enabled again with its [run_count] and [last_run] unchanged, a
    fresh registered job, and [next_run] re-anchored at the enable time. *)
Theorem disable_then_enable iso cj cn (now : Z) (s : Sched) (tid : string)
    (t : Task) :
  find_task tid (tasks s) = Some t ->
  schedule_type t = "interval"%string ->
  0 < interval t -> 0 <= now -> now + interval t <= max_secs ->
  exists s2,
    enable_task iso cj cn now (fst (disable_task iso s tid)) tid = Done (s2, true) /\
    exists t', find_task tid (tasks s2) = Some t' /\ enabled t' = true /\
      run_count t' = run_count t /\ last_run t' = last_run t /\
      next_run t' = Some (naive (now + interval t)) /\
      exists j, job t' = Some j /\ In j (jobs s2).
Proof.
  intros Hf Hst Hpos H0 Hmx.
  destruct (disable_task_found iso s tid t Hf) as (t1 & Hf1 & Hs & Hr & Hl).
  destruct Hs as (_ & _ & _ & Hst1 & Hi1 & _).
  assert (Hst' : schedule_type t1 = "interval"%string) by congruence.
  rewrite <- Hi1 in Hpos, Hmx.
  destruct (enable_task_interval iso cj cn now _ tid t1 Hf1 Hst' Hpos H0 Hmx)
    as (s2 & E & t' & Hf' & He & Hr' & Hl' & Hn & Hj).
  exists s2. split; [exact E|]. exists t'. rewrite Hi1 in Hn.
  split; [exact Hf'|]. split; [exact He|]. split; [congruence|].
  split; [congruence|]. split; [exact Hn|exact Hj].
Qed.

Lemma disable_then_enable_witness :
  find_task "t1" (tasks (sched_one task_scheduled)) = Some task_scheduled /\
  schedule_type task_scheduled = "interval"%string /\
  0 < interval task_scheduled /\ 0 <= 500 /\
  500 + interval task_scheduled <= max_secs /\
  exists s2,
    enable_task sample_isoformat lib_raises cal_next_day 500
      (fst (disable_task sample_isoformat (sched_one task_scheduled) "t1")) "t1"
      = Done (s2, true) /\
    exists t', find_task "t1" (tasks s2) = Some t' /\ enabled t' = true /\
      run_count t' = run_count task_scheduled /\
      last_run t' = last_run task_scheduled /\
      next_run t' = Some (naive (500 + interval task_scheduled)) /\
      exists j, job t' = Some j /\ In j (jobs s2).
Proof.
  assert (H1 : 0 < interval task_scheduled) by (cbn; lia).
  assert (H2 : 0 <= 500) by lia.
  assert (H3 : 500 + interval task_scheduled <= max_secs)
    by (cbn; unfold max_secs; lia).
  refine (conj eq_refl (conj eq_refl (conj H1 (conj H2 (conj H3 _))))).
  exact (disable_then_enable sample_isoformat lib_raises cal_next_day 500
           (sched_one task_scheduled) "t1" task_scheduled eq_refl eq_refl
           H1 H2 H3).
Defined.



Lemma load_saved_records iso fi (l0 l : list (string * Task)) (k : string) :
  (forall d, iso d <> ""%string) ->
  (forall d, fi (iso d) = Some d) ->
  wf_registry l0 ->
  find_task k (load_records fi l (map (fun kt => to_dict iso (snd kt)) l0))
    = match find_task k l with
      | None => None
      | Some t => Some (match find_task k l0 with
                        | None => t
                        | Some t0 => with_run_state t0 t
                        end)
      end.
Proof.
  intros Hne Hrt. revert l.
  induction l0 as [|[k0 t0] l0 IH]; intros l [Hnd Hf]; simpl.
  - destruct (find_task k l); reflexivity.
  - inversion Hnd as [|? ? Hnin Hnd']; subst.
    inversion Hf as [|? ? Hid Hf']; subst. simpl in Hid.
    specialize (fun l => IH l (conj Hnd' Hf')).
    rewrite Hid.
    destruct (find_task k0 l) as [t|] eqn:E.
    + rewrite !(parse_iso_opt iso fi Hne Hrt). rewrite IH.
      destruct (String.eqb_spec k k0) as [->|Hk].
      * rewrite find_update_same, E, (find_not_in k0 l0 Hnin). reflexivity.
      * rewrite find_update_other by exact Hk. reflexivity.
    + rewrite IH. destruct (String.eqb_spec k k0) as [->|Hk].
      * rewrite E. reflexivity.
      * reflexivity.
Qed.

(** If the ISO codec round-trips, [_load_tasks] of a scheduler [s] reading
    the [tasks.json] written by [_save_tasks] of a scheduler [s0] gives
    every task of [s] the [enabled], [run_count], [last_run] and
    [next_run] of the task saved under its id; the tasks keep their other
    fields, and [s] gains no task. *)
Theorem save_then_load iso fi (s0 s : Sched) (k : string) :
  (forall d, iso d <> ""%string) ->
  (forall d, fi (iso d) = Some d) ->
  wf_registry (tasks s0) ->
  store s = store (save_tasks iso s0) ->
  find_task k (tasks (load_tasks fi s))
    = match find_task k (tasks s) with
      | None => None
      | Some t => Some (match find_task k (tasks s0) with
                        | None => t
                        | Some t0 => with_run_state t0 t
                        end)
      end.
Proof.
  intros Hne Hrt Hwf Hst. unfold load_tasks. rewrite Hst.
  cbn [save_tasks store set_tasks tasks].
  apply load_saved_records; assumption.
Qed.

Lemma save_then_load_witness :
  (forall d, sample_isoformat d <> ""%string) /\
  (forall d, sample_fromisoformat (sample_isoformat d) = Some d) /\
  wf_registry (tasks (sched_one task_scheduled)) /\
  store (mkSched [("t1"%string, task_max1)] [] 0%nat
           (store (save_tasks sample_isoformat (sched_one task_scheduled))))
    = store (save_tasks sample_isoformat (sched_one task_scheduled)) /\
  find_task "t1" (tasks (load_tasks sample_fromisoformat
     (mkSched [("t1"%string, task_max1)] [] 0%nat
        (store (save_tasks sample_isoformat (sched_one task_scheduled))))))
    = Some (with_run_state task_scheduled task_max1).
Proof.
  assert (Hwf : wf_registry (tasks (sched_one task_scheduled))).
  { split; simpl; repeat constructor; simpl; tauto. }
  refine (conj sample_iso_nonempty (conj sample_iso_roundtrip
            (conj Hwf (conj eq_refl _)))).
  exact (save_then_load sample_isoformat sample_fromisoformat
           (sched_one task_scheduled)
           (mkSched [("t1"%string, task_max1)] [] 0%nat
              (store (save_tasks sample_isoformat (sched_one task_scheduled))))
           "t1" sample_iso_nonempty sample_iso_roundtrip Hwf eq_refl).
Defined.

(** [start] on a stopped scheduler reschedules every registered task.
    When it returns, it has set [running], the registry keeps its keys in
    order, and each task keeps its id, name, work-unit and schedule fields.
    An enabled interval task with [interval > 0] and [now + interval] a
    datetime stays enabled with [next_run = now + interval] (re-anchored at
    start, whatever its saved [next_run]); a disabled task only loses its
    job handle.  [start] returns when no registered task is an enabled
    interval task with [interval = 0], and never returns when one is. *)
Theorem start_reschedules cj cn (now : Z) (s : Sched) :
  wf_registry (tasks s) ->
  0 <= now <= max_secs ->
  (forall r s', start cj cn now false s = Done (r, s') ->
   r = true /\
   map fst (tasks s') = map fst (tasks s) /\
   (forall k t, find_task k (tasks s) = Some t ->
    exists t', find_task k (tasks s') = Some t' /\ same_static t t' /\
      (enabled t = true -> schedule_type t = "interval"%string ->
       0 < interval t -> now + interval t <= max_secs ->
       enabled t' = true /\ next_run t' = Some (naive (now + interval t))) /\
      (enabled t = false -> t' = set_job None t))) /\
  (Forall (fun kt => enabled (snd kt) = false \/
                     schedule_type (snd kt) <> "interval"%string \/
                     interval (snd kt) <> 0) (tasks s) ->
   exists s', start cj cn now false s = Done (true, s')) /\
  (forall k t, find_task k (tasks s) = Some t -> enabled t = true ->
   schedule_type t = "interval"%string -> interval t = 0 ->
   start cj cn now false s = Loops).
Proof.
  intros [Hnd _] Hnow. split; [|split].
  - intros r s'. unfold start, schedule_all.
    destruct (schedule_each cj cn now (tasks s) s) as [s2|] eqn:E;
      [|discriminate].
    intros H. injection H as <- <-. split; [reflexivity|]. split.
    + apply (schedule_each_keys cj cn now (tasks s) s s2); [tauto|exact E].
    + intros k t Hf.
      destruct (schedule_each_spec cj cn now (tasks s) s s2 Hnd E) as [_ H2].
      destruct (H2 k t (find_some_in _ _ _ Hf)) as (b & b' & t' & ok & Eb & Hb).
      exists t'. split; [exact Hb|].
      pose proof (schedule_task_done _ _ _ _ _ _ _ _ Eb) as (_ & _ & _ & Hs & _).
      split; [exact Hs|]. split.
      * intros Hen Hst Hpos Hmx.
        destruct (schedule_task_interval_anchor _ _ _ _ _ _ _ _
                    Hen Hst Hpos (proj1 Hnow) Hmx Eb) as (_ & He & Hn & _).
        split; assumption.
      * intros Hen. exact (schedule_task_disabled_eq _ _ _ _ _ _ _ _ Hen Eb).
  - intros Hall. unfold start, schedule_all.
    destruct (schedule_each_returns cj cn now (tasks s) s Hall) as [s' E].
    rewrite E. eexists. reflexivity.
  - intros k t Hf Hen Hst Hi. unfold start, schedule_all.
    rewrite (schedule_each_hangs cj cn now k t Hnow Hen Hst Hi (tasks s) s
               (find_some_in _ _ _ Hf)).
    reflexivity.
Qed.

Lemma start_reschedules_witness :
  wf_registry (tasks (sched_one task_scheduled)) /\
  0 <= 5 <= max_secs /\
  ((forall r s', start lib_raises cal_next_day 5 false (sched_one task_scheduled)
                   = Done (r, s') ->
    r = true /\
    map fst (tasks s') = map fst (tasks (sched_one task_scheduled)) /\
    (forall k t, find_task k (tasks (sched_one task_scheduled)) = Some t ->
     exists t', find_task k (tasks s') = Some t' /\ same_static t t' /\
       (enabled t = true -> schedule_type t = "interval"%string ->
        0 < interval t -> 5 + interval t <= max_secs ->
        enabled t' = true /\ next_run t' = Some (naive (5 + interval t))) /\
       (enabled t = false -> t' = set_job None t))) /\
   (Forall (fun kt => enabled (snd kt) = false \/
                      schedule_type (snd kt) <> "interval"%string \/
                      interval (snd kt) <> 0) (tasks (sched_one task_scheduled)) ->
    exists s', start lib_raises cal_next_day 5 false (sched_one task_scheduled)
                 = Done (true, s')) /\
   (forall k t, find_task k (tasks (sched_one task_scheduled)) = Some t ->
    enabled t = true -> schedule_type t = "interval"%string -> interval t = 0 ->
    start lib_raises cal_next_day 5 false (sched_one task_scheduled) = Loops)).
Proof.
  assert (Hwf : wf_registry (tasks (sched_one task_scheduled))).
  { split; simpl; repeat constructor; simpl; tauto. }
  assert (Hnow : 0 <= 5 <= max_secs) by (unfold max_secs; lia).
  exact (conj Hwf (conj Hnow (start_reschedules lib_raises cal_next_day 5
                     (sched_one task_scheduled) Hwf Hnow))).
Defined.
